(** * BottomNavigation: the tab-selection animation controller

    A shallow embedding of [src/components/BottomNavigation.js]
    (react-native-paper).  The component is a React class: its methods read
    [this.props], read and mutate the [Animated.Value] cells held in
    [this.state], and call back into the host.  Here

    - JavaScript numbers that are used as indices are integers ([Z]);
      numbers that live in [Animated.Value] cells or in the measured layout
      are rationals ([Q]) -- an idealisation of JS doubles, which is exact
      for every constant the component writes (0, 1, -2 .. 2) and reads
      0.1 as the rational 1/10;
    - the cells are named by their place in the state ([Cell]); the state
      arrays are created once by the constructor and never reassigned, so a
      place names one object for the life of the component;
    - methods are computations in a small state-and-trace monad [M]: they
      thread the component [State] and log, in program order, every call
      made on the Animated API and every callback fired toward the host. *)

From stdpp Require Import base list strings.
From Stdlib Require Import ZArith QArith Qminmax Lia.

Open Scope Z_scope.

(** ** JavaScript helpers *)

(** [arr[i]] for a number [i] that holds an integer: [undefined] ([None])
    below zero and past the end. *)
Definition js_get {A : Type} (arr : list A) (i : Z) : option A :=
  if i <? 0 then None else arr !! Z.to_nat i.

(** [Array.prototype.findIndex]: the position of the first element that
    satisfies the predicate, [-1] when there is none. *)
Fixpoint findIndex_from {A : Type} (p : A -> bool) (arr : list A) (i : Z) : Z :=
  match arr with
  | [] => -1
  | x :: rest => if p x then i else findIndex_from p rest (i + 1)
  end.

Definition findIndex {A : Type} (p : A -> bool) (arr : list A) : Z :=
  findIndex_from p arr 0.

(** The values a prop can hold at run time, as far as [typeof] tells them
    apart. *)
Inductive JsValue : Type :=
| JsUndefined
| JsNull
| JsBoolean (b : bool)
| JsNumber (q : Q)
| JsString (s : string).

Definition typeof_is_boolean (v : JsValue) : bool :=
  match v with JsBoolean _ => true | _ => false end.

(** ** Data model *)

Record Route : Type := mkRoute {
  key : string;
  title : string;
  icon : string;
  color : option string
}.

Record NavigationState : Type := mkNav {
  index : Z;
  routes : list Route
}.

(** The props the controller logic reads.  [onIndexChange] is required and
    always present; [onTabPress] is optional, [hasOnTabPress] records
    whether the host supplied it. *)
Record Props : Type := mkProps {
  navigationState : NavigationState;
  shifting : JsValue;
  hasOnTabPress : bool
}.

Record Layout : Type := mkLayout {
  height : Q;
  width : Q;
  measured : bool
}.

(** [this.state]; [anim_index] is the field the source calls
    [state.index]. *)
Record State : Type := mkState {
  tabs : list Q;
  shifts : list Q;
  anim_index : Q;
  ripple : Q;
  layout : Layout
}.

Definition MIN_RIPPLE_SCALE : Q := 1 # 10.

(** An [Animated.Value] object, named by where the state holds it. *)
Inductive Cell : Type :=
| TabCell (i : nat)
| ShiftCell (i : nat)
| IndexCell
| RippleCell.

(** [this.state.tabs[i]] and [this.state.shifts[i]] as object references:
    [undefined] when the array has no such entry. *)
Definition tabs_ref (st : State) (i : nat) : option Cell :=
  (fun _ => TabCell i) <$> tabs st !! i.

Definition shifts_ref (st : State) (i : nat) : option Cell :=
  (fun _ => ShiftCell i) <$> shifts st !! i.

(** The configuration object handed to [Animated.timing]. *)
Record Timing : Type := mkTiming {
  target : option Cell;
  toValue : Q;
  duration : Z;
  useNativeDriver : bool
}.

(** What a method does that the outside can observe, in program order. *)
Inductive Effect : Type :=
| ESetValue (c : Cell) (v : Q)
| EStart (plan : list Timing) (captured_index : Z)
| EOnIndexChange (i : Z)
| EOnTabPress (route : option Route).

(** ** The state-and-trace monad *)

Definition M (A : Type) : Type := State -> A * State * list Effect.

Definition ret {A : Type} (a : A) : M A := fun st => (a, st, []).

Definition bind {A B : Type} (m : M A) (k : A -> M B) : M B :=
  fun st =>
    let '(a, st1, t1) := m st in
    let '(b, st2, t2) := k a st1 in
    (b, st2, t1 ++ t2).

Declare Scope M_scope.
Delimit Scope M_scope with M.
Bind Scope M_scope with M.
Notation "m1 ;; m2" := (bind m1 (fun _ => m2))
  (at level 100, m2 at level 200, right associativity) : M_scope.

Definition emit (e : Effect) : M unit := fun st => (tt, st, [e]).

Definition when (b : bool) (m : M unit) : M unit := if b then m else ret tt.

Definition final_state {A : Type} (r : A * State * list Effect) : State :=
  snd (fst r).

Definition trace_of {A : Type} (r : A * State * list Effect) : list Effect :=
  snd r.

(** [cell.setValue(v)]: the write happens at once, no animation. *)
Definition write_cell (c : Cell) (v : Q) (st : State) : State :=
  match c with
  | TabCell i =>
      mkState (<[i := v]> (tabs st)) (shifts st) (anim_index st) (ripple st) (layout st)
  | ShiftCell i =>
      mkState (tabs st) (<[i := v]> (shifts st)) (anim_index st) (ripple st) (layout st)
  | IndexCell =>
      mkState (tabs st) (shifts st) v (ripple st) (layout st)
  | RippleCell =>
      mkState (tabs st) (shifts st) (anim_index st) v (layout st)
  end.

Definition setValue (c : Cell) (v : Q) : M unit :=
  fun st => (tt, write_cell c v st, [ESetValue c v]).

(** [arr.map((x, i) => body)] run for its effects, left to right. *)
Fixpoint forEach_from {A : Type} (body : A -> nat -> M unit) (arr : list A) (i : nat) : M unit :=
  match arr with
  | [] => ret tt
  | x :: rest => (body x i ;; forEach_from body rest (S i))%M
  end.

Definition forEach {A : Type} (body : A -> nat -> M unit) (arr : list A) : M unit :=
  forEach_from body arr 0%nat.

(** ** The component *)

(** [_getShiftAmount] *)
Definition _getShiftAmount (activeIndex currentIndex numberOfItems : Z) : Z :=
  if activeIndex <? currentIndex then 2
  else if activeIndex >? currentIndex then -2
  else if (activeIndex =? currentIndex)
          && (currentIndex =? 0) then 1
  else if (activeIndex =? currentIndex)
          && (currentIndex =? numberOfItems - 1) then -1
  else 0.

Definition route_count (nav : NavigationState) : Z :=
  Z.of_nat (length (routes nav)).

Definition focus_target (index : Z) (i : nat) : Q :=
  if Z.of_nat i =? index then 1%Q else 0%Q.

Definition shift_target (index : Z) (i : nat) (numberOfItems : Z) : Q :=
  inject_Z (_getShiftAmount index (Z.of_nat i) numberOfItems).

(** [constructor] *)
Definition constructor (props : Props) : State :=
  let nav := navigationState props in
  mkState
    (imap (fun i _ => focus_target (index nav) i) (routes nav))
    (imap (fun i _ => shift_target (index nav) i (route_count nav)) (routes nav))
    (inject_Z (index nav))
    MIN_RIPPLE_SCALE
    (mkLayout 0 0 false).

(** The array handed to [Animated.parallel] in [componentDidUpdate]. *)
Definition transition_plan (nav : NavigationState) (st : State) : list Timing :=
  imap (fun i _ => mkTiming (tabs_ref st i) (focus_target (index nav) i) 200 true)
       (routes nav)
  ++ imap (fun i _ =>
             mkTiming (shifts_ref st i)
                      (shift_target (index nav) i (route_count nav)) 200 true)
          (routes nav)
  ++ [mkTiming (Some RippleCell) 1 300 true].

(** [componentDidUpdate] *)
Definition componentDidUpdate (prevProps props : Props) : M unit :=
  when (negb (index (navigationState prevProps) =? index (navigationState props)))
    (setValue RippleCell MIN_RIPPLE_SCALE ;;
     fun st =>
       emit (EStart (transition_plan (navigationState props) st)
                    (index (navigationState props))) st)%M.

(** The function passed to [start]: it runs when the executor reports the
    plan complete, on whatever the state holds by then; [index] is the
    value the closure captured. *)
Definition start_callback (index : Z) : M unit :=
  ((fun st => forEach (fun _ i => setValue (TabCell i) (focus_target index i)) (tabs st) st) ;;
   setValue IndexCell (inject_Z index) ;;
   setValue RippleCell MIN_RIPPLE_SCALE)%M.

(** [_handleLayout]: [setState] replaces the [layout] field. *)
Definition _handleLayout (h w : Q) : M unit :=
  fun st =>
    (tt, mkState (tabs st) (shifts st) (anim_index st) (ripple st) (mkLayout h w true), []).

(** [_handleTabPress] *)
Definition _handleTabPress (props : Props) (index_ : Z) : M unit :=
  (when (negb (index_ =? index (navigationState props)))
     (emit (EOnIndexChange index_)) ;;
   when (hasOnTabPress props)
     (emit (EOnTabPress (js_get (routes (navigationState props)) index_))))%M.

(** [_jumpTo] *)
Definition _jumpTo (props : Props) (k : string) : M unit :=
  let index_ :=
    findIndex (fun route => String.eqb (key route) k)
              (routes (navigationState props)) in
  emit (EOnIndexChange index_).

(** *** What [render] derives *)

Definition render_shifting (props : Props) : bool :=
  if typeof_is_boolean (shifting props)
  then match shifting props with JsBoolean b => b | _ => false end
  else 3 <? route_count (navigationState props).

Definition maxTabWidth (props : Props) : Q :=
  if 3 <? route_count (navigationState props) then 96%Q else 168%Q.

Definition tabWidth (props : Props) (st : State) : Q :=
  Qmin (width (layout st) / inject_Z (route_count (navigationState props)))
       (maxTabWidth props).

Inductive PointerEvents : Type := PEAuto | PENone.

Definition pointerEvents (st : State) : PointerEvents :=
  if measured (layout st) then PEAuto else PENone.

(** ** The component as a reactive system

    Between method calls the component sits in a configuration: the props
    of the last render, the state, and the completion callbacks of the
    plans started so far that have not run yet (each is [start_callback]
    closed over the index it captured). *)

Record Config : Type := mkConfig {
  cfg_props : Props;
  cfg_state : State;
  cfg_pending : list Z
}.

(** What can happen to a mounted component. *)
Inductive Input : Type :=
| ILayout (h w : Q)        (* the root view reports its size: [onLayout] *)
| IPress (i : nat)         (* the [onPress] of the i-th rendered tab *)
| IJumpTo (k : string)     (* a scene calls the [jumpTo] it was given *)
| IUpdate (p : Props)      (* the host re-renders the component with [p] *)
| IAnimate (c : Cell) (v : Q)  (* the executor moves a cell *)
| IComplete (idx : Z).     (* the executor reports a plan complete *)

Definition started_indices (t : list Effect) : list Z :=
  omap (fun e => match e with EStart _ idx => Some idx | _ => None end) t.

Fixpoint remove_first (x : Z) (l : list Z) : list Z :=
  match l with
  | [] => []
  | y :: rest => if x =? y then rest else y :: remove_first x rest
  end.

Definition run_method (cfg : Config) (m : M unit) : Config * list Effect :=
  let r := m (cfg_state cfg) in
  (mkConfig (cfg_props cfg) (final_state r) (cfg_pending cfg), trace_of r).

(** One input.  [None] means the input cannot reach the component in this
    configuration: a tab's [onPress] exists only for a rendered route and,
    the root view being rendered with [pointerEvents] as [render] computes
    it, touches are delivered only under ['auto']; a completion is reported
    only for a plan that was started. *)
Definition deliver (cfg : Config) (inp : Input) : option (Config * list Effect) :=
  match inp with
  | ILayout h w => Some (run_method cfg (_handleLayout h w))
  | IPress i =>
      match pointerEvents (cfg_state cfg) with
      | PEAuto =>
          if (i <? length (routes (navigationState (cfg_props cfg))))%nat
          then Some (run_method cfg (_handleTabPress (cfg_props cfg) (Z.of_nat i)))
          else None
      | PENone => None
      end
  | IJumpTo k => Some (run_method cfg (_jumpTo (cfg_props cfg) k))
  | IUpdate p =>
      let r := componentDidUpdate (cfg_props cfg) p (cfg_state cfg) in
      Some (mkConfig p (final_state r) (cfg_pending cfg ++ started_indices (trace_of r)),
            trace_of r)
  | IAnimate c v =>
      Some (mkConfig (cfg_props cfg) (write_cell c v (cfg_state cfg)) (cfg_pending cfg), [])
  | IComplete idx =>
      if bool_decide (idx ∈ cfg_pending cfg)
      then
        let r := start_callback idx (cfg_state cfg) in
        Some (mkConfig (cfg_props cfg) (final_state r) (remove_first idx (cfg_pending cfg)),
              trace_of r)
      else None
  end.

Fixpoint run_inputs (cfg : Config) (ins : list Input) : option (Config * list Effect) :=
  match ins with
  | [] => Some (cfg, [])
  | inp :: rest =>
      match deliver cfg inp with
      | None => None
      | Some (cfg1, t1) =>
          match run_inputs cfg1 rest with
          | None => None
          | Some (cfg2, t2) => Some (cfg2, t1 ++ t2)
          end
      end
  end.

Definition mount (props : Props) : Config :=
  mkConfig props (constructor props) [].

Definition is_layout (inp : Input) : bool :=
  match inp with ILayout _ _ => true | _ => false end.

Definition is_press (inp : Input) : bool :=
  match inp with IPress _ => true | _ => false end.

Definition is_jump (inp : Input) : bool :=
  match inp with IJumpTo _ => true | _ => false end.

Definition is_host_call (e : Effect) : bool :=
  match e with EOnIndexChange _ | EOnTabPress _ => true | _ => false end.

(** ** The specification's wording, for comparison *)

Module Spec.

(** "returns 2 whenever a<c, -2 whenever a>c, and for a==c returns 1 if
    c==0, -1 if c==n-1, else 0" *)
Definition shiftAmount (a c n : Z) : Z :=
  if a <? c then 2
  else if c <? a then -2
  else if c =? 0 then 1
  else if c =? n - 1 then -1
  else 0.

(** "maxTabWidth = 96 if routeCount > 3 else 168" *)
Definition maxTabWidth (routeCount : Z) : Q :=
  if routeCount >? 3 then 96%Q else 168%Q.

(** "min(width / routeCount, maxTabWidth)" *)
Definition tabWidth (w : Q) (routeCount : Z) : Q :=
  Qmin (w / inject_Z routeCount) (maxTabWidth routeCount).

(** "shifting: boolean (default: routeCount > 3)" *)
Definition shifting (knob : option bool) (routeCount : Z) : bool :=
  match knob with
  | Some b => b
  | None => routeCount >? 3
  end.

End Spec.

(** The configuration knob as the specification sees it: an explicit
    boolean, or not one. *)
Definition shifting_knob (props : Props) : option bool :=
  match shifting props with
  | JsBoolean b => Some b
  | _ => None
  end.

(** ** Sample data *)

Definition route_of_key (k : string) : Route := mkRoute k k "icon" None.

Definition routes_abc : list Route :=
  [route_of_key "a"; route_of_key "b"; route_of_key "c"].

Definition routes_music : list Route :=
  [ mkRoute "music" "Music" "queue-music" (Some "#3F51B5");
    mkRoute "albums" "Albums" "album" (Some "#009688");
    mkRoute "recents" "Recents" "history" (Some "#795548");
    mkRoute "purchased" "Purchased" "shopping-cart" (Some "#607D8B") ].

Definition routes_five : list Route :=
  routes_music ++ [mkRoute "settings" "Settings" "settings" None].

Definition props_abc (i : Z) : Props :=
  mkProps (mkNav i routes_abc) JsUndefined true.

Definition props_music (i : Z) : Props :=
  mkProps (mkNav i routes_music) JsUndefined false.

Definition props_five : Props :=
  mkProps (mkNav 0 routes_five) JsUndefined false.

(** ** A plan that runs to its end

    [Animated.timing(value, { toValue })] drives [value] to [toValue]; a
    timing whose value is [undefined] has no cell to drive.  [settle] is
    the state once every timing of a plan has run to its end. *)

Definition run_timing (t : Timing) (st : State) : State :=
  match target t with
  | Some c => write_cell c (toValue t) st
  | None => st
  end.

Definition settle (plan : list Timing) (st : State) : State :=
  foldl (fun s t => run_timing t s) st plan.

(** ** More of [render]: the ripple and the items row *)

(** The outcome of a JavaScript expression that may throw on a property
    access through [undefined]. *)
Inductive Js (A : Type) : Type :=
| JsOk (a : A)
| JsTypeError.

Arguments JsOk {A} a.
Arguments JsTypeError {A}.

(** The style object of the ripple view; the fields are the source's
    [top], [left], [height], [width], [borderRadius], [backgroundColor]. *)
Record RippleStyle : Type := mkRippleStyle {
  ripple_top : Q;
  ripple_left : Q;
  ripple_height : Q;
  ripple_width : Q;
  ripple_borderRadius : Q;
  ripple_backgroundColor : option string
}.

(** [{shifting ? <Animated.View style={...} /> : null}]: [JsOk None] is
    [null]; reading [.color] off [routes[navigationState.index]] throws
    when there is no such route. *)
Definition render_ripple (props : Props) (st : State) : Js (option RippleStyle) :=
  let nav := navigationState props in
  let w := width (layout st) in
  if render_shifting props then
    match js_get (routes nav) (index nav) with
    | Some route =>
        JsOk (Some (mkRippleStyle
                      (- w + 28)
                      (- w + tabWidth props st / 2 + inject_Z (index nav) * tabWidth props st)
                      (w * 2)
                      (w * 2)
                      w
                      (color route)))%Q
    | None => JsTypeError
    end
  else JsOk None.


(** ** The example host

    [example/src/BottomNavigationExample.js]: the host keeps the navigation
    state, hands it to the component, and stores whatever index
    [onIndexChange] reports. *)

Module BottomNavigationExample.

Definition state : NavigationState :=
  mkNav 0
    [ mkRoute "music" "Music" "queue-music" (Some "#3F51B5");
      mkRoute "albums" "Albums" "album" (Some "#009688");
      mkRoute "recents" "Recents" "history" (Some "#795548");
      mkRoute "purchased" "Purchased" "shopping-cart" (Some "#607D8B") ].

(** [_handleIndexChange = index => this.setState({ index })] *)
Definition _handleIndexChange (index_ : Z) (s : NavigationState) : NavigationState :=
  mkNav index_ (routes s).

(** [render]: the props the host passes; no [shifting], no [onTabPress]. *)
Definition render (s : NavigationState) : Props :=
  mkProps s JsUndefined false.

End BottomNavigationExample.

(** The example host and the component together.  The host answers every
    [onIndexChange] of a handler with its [setState]; React then renders
    the component again with the new props and calls [componentDidUpdate].
    Nothing but the host re-renders the component. *)
Record System : Type := mkSystem {
  host : NavigationState;
  component : Config
}.

Definition index_changes (t : list Effect) : list Z :=
  omap (fun e => match e with EOnIndexChange i => Some i | _ => None end) t.

Definition host_react (s : NavigationState) (t : list Effect) : NavigationState :=
  foldl (fun s i => BottomNavigationExample._handleIndexChange i s) s (index_changes t).

Definition system_deliver (sys : System) (inp : Input) : option (System * list Effect) :=
  match inp with
  | IUpdate _ => None
  | _ =>
      match deliver (component sys) inp with
      | None => None
      | Some (cfg1, t1) =>
          match index_changes t1 with
          | [] => Some (mkSystem (host sys) cfg1, t1)
          | _ :: _ =>
              let hs := host_react (host sys) t1 in
              match deliver cfg1 (IUpdate (BottomNavigationExample.render hs)) with
              | Some (cfg2, t2) => Some (mkSystem hs cfg2, t1 ++ t2)
              | None => None
              end
          end
      end
  end.

Definition system_mount (s : NavigationState) : System :=
  mkSystem s (mount (BottomNavigationExample.render s)).

(** ** CardActions

    [components/Card/CardActions.js]: the function it maps over its
    children.  A child is a string, a number, [null] or a React element;
    of an element the model keeps the type, the [compact] prop and the
    other props (keys and refs are left out). *)

Module CardActions.

Record Element : Type := mkElement {
  el_type : string;
  el_compact : JsValue;
  el_props : list (string * JsValue)
}.

Inductive Child : Type :=
| ChildString (s : string)
| ChildNumber (q : Q)
| ChildNull
| ChildElement (e : Element).

Definition typeof_is_object (child : Child) : bool :=
  match child with
  | ChildNull | ChildElement _ => true
  | ChildString _ | ChildNumber _ => false
  end.

Definition is_null (child : Child) : bool :=
  match child with ChildNull => true | _ => false end.

(** [v !== false] *)
Definition strict_ne_false (v : JsValue) : bool :=
  match v with
  | JsBoolean false => false
  | _ => true
  end.

(** [React.cloneElement(child, { compact })]: the same element with the
    [compact] prop replaced. *)
Definition cloneElement_compact (e : Element) (compact : bool) : Element :=
  mkElement (el_type e) (JsBoolean compact) (el_props e).

(** The arrow function handed to [React.Children.map]. *)
Definition map_child (child : Child) : Child :=
  if typeof_is_object child && negb (is_null child)
  then match child with
       | ChildElement e =>
           ChildElement (cloneElement_compact e (strict_ne_false (el_compact e)))
       | _ => child
       end
  else child.

End CardActions.

(** * Theorems *)

(** ** Shift amount *)

Lemma shiftAmount_refines (a c n : Z) :
  _getShiftAmount a c n = Spec.shiftAmount a c n.
Proof.
  unfold _getShiftAmount, Spec.shiftAmount.
  rewrite Z.gtb_ltb.
  destruct (Z.ltb_spec a c) as [Hac | Hac]; [reflexivity |].
  destruct (Z.ltb_spec c a) as [Hca | Hca]; [reflexivity |].
  assert (Heq : a = c) by lia. subst a.
  rewrite Z.eqb_refl. reflexivity.
Qed.

(** C1. For all integers [a], [c] and every [n >= 1], [_getShiftAmount a c n]
    is [2] when [a < c], [-2] when [a > c], and when [a = c] it is [1] if
    [c = 0], else [-1] if [c = n - 1], else [0]; the five sample values of
    the specification come out as listed.  The cases are read in the order
    given, as the code tests them: for [n = 1] the only tab is both first
    and last and gets [1]. *)
Theorem shiftAmount_cases (a c n : Z) :
  1 <= n ->
  _getShiftAmount a c n = Spec.shiftAmount a c n
  /\ (a < c -> _getShiftAmount a c n = 2)
  /\ (a > c -> _getShiftAmount a c n = -2)
  /\ (a = c -> c = 0 -> _getShiftAmount a c n = 1)
  /\ (a = c -> c <> 0 -> c = n - 1 -> _getShiftAmount a c n = -1)
  /\ (a = c -> c <> 0 -> c <> n - 1 -> _getShiftAmount a c n = 0)
  /\ _getShiftAmount 0 2 4 = 2
  /\ _getShiftAmount 2 0 4 = -2
  /\ _getShiftAmount 0 0 4 = 1
  /\ _getShiftAmount 3 3 4 = -1
  /\ _getShiftAmount 1 1 4 = 0.
Proof.
  intros _.
  split; [apply shiftAmount_refines |].
  rewrite shiftAmount_refines. unfold Spec.shiftAmount.
  repeat split; try reflexivity; intros;
    repeat match goal with
           | |- context [?x <? ?y] => destruct (Z.ltb_spec x y); try lia
           | |- context [?x =? ?y] => destruct (Z.eqb_spec x y); try lia
           end.
Qed.

Lemma shiftAmount_cases_witness :
  1 <= 1 /\ _getShiftAmount 0 0 1 = 1 /\ _getShiftAmount 2 2 3 = -1.
Proof.
  split; [lia |]. split.
  - destruct (shiftAmount_cases 0 0 1) as (_ & _ & _ & H & _);
      [lia | apply H; reflexivity].
  - destruct (shiftAmount_cases 2 2 3) as (_ & _ & _ & _ & H & _);
      [lia | apply H; [reflexivity | lia | reflexivity]].
Defined.

(** The rest value is always one of the five offsets. *)
Lemma shiftAmount_range (a c n : Z) : -2 <= _getShiftAmount a c n <= 2.
Proof.
  rewrite shiftAmount_refines. unfold Spec.shiftAmount.
  repeat match goal with
         | |- context [if ?b then _ else _] => destruct b
         end; lia.
Qed.

(** ** What [render] derives *)

(** C8. When the [shifting] prop is not a boolean the effective shifting
    mode is [routeCount > 3] -- [false] for three routes, [true] for four --
    and when it is a boolean that boolean is used as it is. *)
Theorem shifting_default (props : Props) :
  let n := route_count (navigationState props) in
  render_shifting props = Spec.shifting (shifting_knob props) n
  /\ (forall b : bool, shifting props = JsBoolean b -> render_shifting props = b)
  /\ (typeof_is_boolean (shifting props) = false ->
      render_shifting props = (n >? 3)
      /\ (n = 3 -> render_shifting props = false)
      /\ (n = 4 -> render_shifting props = true)).
Proof.
  intros n. unfold render_shifting, shifting_knob, Spec.shifting.
  fold n. rewrite Z.gtb_ltb.
  split; [destruct (shifting props); reflexivity |].
  split.
  - intros b Hb. rewrite Hb. reflexivity.
  - intros Hty. rewrite Hty.
    split; [reflexivity |].
    split; intros Hn; rewrite Hn; reflexivity.
Qed.

Lemma shifting_default_witness :
  render_shifting (props_abc 0) = false
  /\ render_shifting (props_music 0) = true
  /\ render_shifting (mkProps (mkNav 0 routes_music) (JsBoolean false) false) = false.
Proof.
  split; [| split].
  - destruct (shifting_default (props_abc 0)) as (_ & _ & H).
    destruct H as (_ & H & _); [reflexivity | apply H; reflexivity].
  - destruct (shifting_default (props_music 0)) as (_ & _ & H).
    destruct H as (_ & _ & H); [reflexivity | apply H; reflexivity].
  - destruct (shifting_default (mkProps (mkNav 0 routes_music) (JsBoolean false) false))
      as (_ & H & _).
    apply H; reflexivity.
Defined.

Lemma maxTabWidth_refines (props : Props) :
  maxTabWidth props = Spec.maxTabWidth (route_count (navigationState props)).
Proof. unfold maxTabWidth, Spec.maxTabWidth. rewrite Z.gtb_ltb. reflexivity. Qed.

Lemma tabWidth_refines (props : Props) (st : State) :
  tabWidth props st =
  Spec.tabWidth (width (layout st)) (route_count (navigationState props)).
Proof. unfold tabWidth, Spec.tabWidth. rewrite maxTabWidth_refines. reflexivity. Qed.

(** All the tabs together never exceed the measured width. *)
Lemma tabWidth_fits (props : Props) (st : State) :
  1 <= route_count (navigationState props) ->
  (tabWidth props st * inject_Z (route_count (navigationState props))
   <= width (layout st))%Q.
Proof.
  intros Hn. unfold tabWidth.
  set (n := inject_Z (route_count (navigationState props))).
  assert (Hpos : (0 < n)%Q).
  { unfold n. change 0%Q with (inject_Z 0). rewrite <- Zlt_Qlt. lia. }
  apply Qle_trans with ((width (layout st) / n) * n)%Q.
  - apply Qmult_le_compat_r; [apply Q.le_min_l | apply Qlt_le_weak, Hpos].
  - rewrite Qmult_comm, Qmult_div_r; [apply Qle_refl |].
    intros H0. rewrite H0 in Hpos. discriminate.
Qed.

(** C9. For every measured width and every route count [>= 1]:
    [maxTabWidth] is [96] for more than three routes and [168] otherwise,
    and the tab width is the smaller of [width / routeCount] and
    [maxTabWidth]; width 400 with five routes gives 80, and two routes give
    a [maxTabWidth] of 168. *)
Theorem tabWidth_layout_derived (props : Props) (st : State) :
  let n := route_count (navigationState props) in
  let w := width (layout st) in
  1 <= n ->
  maxTabWidth props = (if n >? 3 then 96 else 168)%Q
  /\ tabWidth props st = Qmin (w / inject_Z n) (maxTabWidth props)
  /\ tabWidth props st = Spec.tabWidth w n
  /\ (tabWidth props st <= w / inject_Z n)%Q
  /\ (tabWidth props st <= maxTabWidth props)%Q
  /\ (tabWidth props st * inject_Z n <= w)%Q
  /\ (n = 5 -> (w == 400)%Q -> (tabWidth props st == 80)%Q)
  /\ (n = 2 -> maxTabWidth props = 168%Q).
Proof.
  intros n w Hn.
  split; [apply maxTabWidth_refines |].
  split; [reflexivity |].
  split; [apply tabWidth_refines |].
  split; [apply Q.le_min_l |].
  split; [apply Q.le_min_r |].
  split; [apply tabWidth_fits, Hn |].
  split.
  - intros H5 Hw. unfold tabWidth, maxTabWidth. fold n w.
    rewrite H5, Hw. reflexivity.
  - intros H2. unfold maxTabWidth. fold n. rewrite H2. reflexivity.
Qed.

Definition measured_state (props : Props) (h w : Q) : State :=
  final_state (_handleLayout h w (constructor props)).

Lemma tabWidth_layout_derived_witness :
  (tabWidth props_five (measured_state props_five 56 400) == 80)%Q
  /\ maxTabWidth (mkProps (mkNav 0 [route_of_key "a"; route_of_key "b"]) JsUndefined false)
     = 168%Q.
Proof.
  split.
  - destruct (tabWidth_layout_derived props_five (measured_state props_five 56 400))
      as (_ & _ & _ & _ & _ & _ & H & _).
    + vm_compute. discriminate.
    + apply H; reflexivity.
  - destruct (tabWidth_layout_derived
                (mkProps (mkNav 0 [route_of_key "a"; route_of_key "b"]) JsUndefined false)
                (constructor props_five))
      as (_ & _ & _ & _ & _ & _ & _ & H).
    + vm_compute. discriminate.
    + apply H; reflexivity.
Defined.

(** ** Key lookup *)

Section FindIndex.
Context {A : Type} (p : A -> bool).

(** The scan stops at the first element that satisfies [p]. *)
Lemma findIndex_from_first (arr : list A) (n : nat) (x : A) (i : Z) :
  arr !! n = Some x ->
  p x = true ->
  (forall (m : nat) (y : A), (m < n)%nat -> arr !! m = Some y -> p y = false) ->
  findIndex_from p arr i = i + Z.of_nat n.
Proof.
  revert n i. induction arr as [| a rest IH]; intros n i Hn Hp Hbefore.
  - discriminate.
  - destruct n as [| n]; simpl in *.
    + injection Hn as ->. rewrite Hp. lia.
    + rewrite (Hbefore 0%nat a) by (reflexivity || lia).
      rewrite (IH n (i + 1)); [lia | assumption | assumption |].
      intros m y Hm Hy. apply (Hbefore (S m) y); [lia | exact Hy].
Qed.

(** With no match the scan runs off the end and yields [-1]. *)
Lemma findIndex_from_none (arr : list A) (i : Z) :
  (forall x, x ∈ arr -> p x = false) ->
  findIndex_from p arr i = -1.
Proof.
  revert i. induction arr as [| a rest IH]; intros i Hall; simpl.
  - reflexivity.
  - rewrite (Hall a) by apply list_elem_of_here.
    apply IH. intros x Hx. apply Hall. apply list_elem_of_further, Hx.
Qed.

(** Whatever the scan returns other than [-1] is the position of a match
    with no match before it. *)
Lemma findIndex_from_found (arr : list A) (i : Z) :
  0 <= i ->
  findIndex_from p arr i <> -1 ->
  exists (n : nat) (x : A),
    findIndex_from p arr i = i + Z.of_nat n
    /\ arr !! n = Some x /\ p x = true
    /\ (forall (m : nat) (y : A), (m < n)%nat -> arr !! m = Some y -> p y = false).
Proof.
  revert i. induction arr as [| a rest IH]; intros i Hi Hne; simpl in *.
  - congruence.
  - destruct (p a) eqn:Hpa.
    + exists 0%nat, a. repeat split; [lia | assumption |]. intros m y Hm. lia.
    + destruct (IH (i + 1)) as (n & x & Heq & Hn & Hpx & Hbefore); [lia | assumption |].
      exists (S n), x. repeat split; [lia | assumption | assumption |].
      intros [| m] y Hm Hy; simpl in Hy.
      * congruence.
      * apply (Hbefore m y); [lia | exact Hy].
Qed.

(** A match anywhere keeps the scan from returning [-1]. *)
Lemma findIndex_from_hit (arr : list A) (x : A) (i : Z) :
  x ∈ arr -> p x = true -> i <= findIndex_from p arr i.
Proof.
  revert i. induction arr as [| a rest IH]; intros i Hx Hp; simpl.
  - apply not_elem_of_nil in Hx. contradiction.
  - destruct (p a) eqn:Hpa; [lia |].
    apply elem_of_cons in Hx as [-> | Hx]; [congruence |].
    specialize (IH (i + 1) Hx Hp). lia.
Qed.

Lemma findIndex_range (arr : list A) :
  findIndex p arr = -1 \/ 0 <= findIndex p arr < Z.of_nat (length arr).
Proof.
  destruct (Z.eq_dec (findIndex p arr) (-1)) as [Heq | Hne]; [left; exact Heq | right].
  destruct (findIndex_from_found arr 0) as (n & x & Heq & Hn & _); [lia | exact Hne |].
  unfold findIndex. rewrite Heq. apply lookup_lt_Some in Hn. lia.
Qed.
End FindIndex.

(** ** Tab presses and [jumpTo] *)

(** The specification's statement that [jumpTo] fires [onIndexChange] only
    with a valid index. *)
Definition jumpTo_fires_only_valid (props : Props) (k : string) (st : State) : Prop :=
  forall i : Z,
    In (EOnIndexChange i) (trace_of (_jumpTo props k st)) ->
    0 <= i < route_count (navigationState props).

(** [jumpTo('z')] on routes a, b, c fires [onIndexChange(-1)]. *)
Lemma jumpTo_unknown_key_fires :
  trace_of (_jumpTo (props_abc 0) "z" (constructor (props_abc 0))) = [EOnIndexChange (-1)]
  /\ ~ jumpTo_fires_only_valid (props_abc 0) "z" (constructor (props_abc 0)).
Proof.
  split; [reflexivity |].
  intros H. specialize (H (-1)).
  assert (Hin : In (EOnIndexChange (-1))
                   (trace_of (_jumpTo (props_abc 0) "z" (constructor (props_abc 0)))))
    by (left; reflexivity).
  apply H in Hin. lia.
Qed.

(** C4, amended. [jumpTo(key)] scans the route list from the front: for a
    key that is present it resolves to the position of the first route
    with that key (['b'] among a, b, c resolves to 1), for an absent key to
    [-1], which is no valid index.  It validates nothing: in both cases it
    fires [onIndexChange] exactly once with what it resolved, and it leaves
    the component state as it was. *)
Theorem jumpTo_resolves (props : Props) (k : string) (st : State) :
  let rs := routes (navigationState props) in
  let idx := findIndex (fun route => String.eqb (key route) k) rs in
  _jumpTo props k st = (tt, st, [EOnIndexChange idx])
  /\ (forall (i : nat) (r : Route),
        rs !! i = Some r -> key r = k ->
        (forall (j : nat) (r' : Route), (j < i)%nat -> rs !! j = Some r' -> key r' <> k) ->
        idx = Z.of_nat i)
  /\ ((exists r, r ∈ rs /\ key r = k) ->
      0 <= idx < Z.of_nat (length rs)
      /\ exists r, js_get rs idx = Some r /\ key r = k)
  /\ ((forall r, r ∈ rs -> key r <> k) ->
      idx = -1 /\ js_get rs idx = None)
  /\ findIndex (fun route => String.eqb (key route) "b") routes_abc = 1.
Proof.
  intros rs idx.
  split; [reflexivity |].
  split; [| split; [| split; [| reflexivity]]].
  - intros i r Hi Hk Hbefore. unfold idx, findIndex.
    rewrite (findIndex_from_first _ rs i r 0 Hi).
    + lia.
    + apply String.eqb_eq, Hk.
    + intros m y Hm Hy. apply String.eqb_neq. eapply Hbefore; eassumption.
  - intros (r & Hr & Hk).
    destruct (findIndex_from_found (fun route => String.eqb (key route) k) rs 0)
      as (n & x & Heq & Hn & Hpx & _).
    + lia.
    + pose proof (findIndex_from_hit (fun route => String.eqb (key route) k) rs r 0 Hr) as Hge.
      rewrite String.eqb_eq in Hge. specialize (Hge Hk). lia.
    + fold (findIndex (fun route => String.eqb (key route) k) rs) in Heq. fold idx in Heq.
      rewrite Heq. split.
      * apply lookup_lt_Some in Hn. lia.
      * exists x. split; [| apply String.eqb_eq, Hpx].
        unfold js_get. rewrite Z.add_0_l.
        destruct (Z.ltb_spec (Z.of_nat n) 0); [lia |].
        rewrite Nat2Z.id. exact Hn.
  - intros Hnone.
    assert (Hidx : idx = -1).
    { apply findIndex_from_none. intros x Hx. apply String.eqb_neq, Hnone, Hx. }
    rewrite Hidx. split; reflexivity.
Qed.

Lemma jumpTo_resolves_witness :
  findIndex (fun route => String.eqb (key route) "c") routes_abc = 2
  /\ findIndex (fun route => String.eqb (key route) "z") routes_abc = -1.
Proof.
  destruct (jumpTo_resolves (props_abc 0) "c" (constructor (props_abc 0)))
    as (_ & Hfirst & _).
  destruct (jumpTo_resolves (props_abc 0) "z" (constructor (props_abc 0)))
    as (_ & _ & _ & Habsent & _).
  split.
  - apply (Hfirst 2%nat (route_of_key "c")); [reflexivity | reflexivity |].
    intros [| [| j]] r' Hj Hr'; try lia; injection Hr' as <-; discriminate.
  - apply Habsent. intros r Hr.
    repeat (apply elem_of_cons in Hr as [-> | Hr]; [discriminate |]).
    apply not_elem_of_nil in Hr. contradiction.
Defined.

(** [_handleTabPress] written out: what it fires, in order, and that it
    touches nothing in the state. *)
Lemma handleTabPress_unfold (props : Props) (i : Z) (st : State) :
  _handleTabPress props i st =
  (tt, st,
   (if i =? index (navigationState props) then [] else [EOnIndexChange i])
   ++ (if hasOnTabPress props
       then [EOnTabPress (js_get (routes (navigationState props)) i)]
       else [])).
Proof.
  unfold _handleTabPress, bind, when, emit, ret.
  destruct (i =? index (navigationState props)), (hasOnTabPress props); reflexivity.
Qed.

(** The specification's statement that a press on tab [i] fires
    [onIndexChange(i)]. *)
Definition press_fires_index_change (props : Props) (i : Z) (st : State) : Prop :=
  In (EOnIndexChange i) (trace_of (_handleTabPress props i st)).

(** Pressing the tab that is already active fires no [onIndexChange]. *)
Lemma press_on_active_tab_is_silent :
  ~ press_fires_index_change (props_music 1) 1 (constructor (props_music 1)).
Proof.
  unfold press_fires_index_change. rewrite handleTabPress_unfold. simpl.
  intros [].
Qed.

(** C5, amended. A press on tab [i] fires [onIndexChange(i)] exactly when
    [i] differs from the active index of the navigation state, and then
    once and before anything else; a press on the active tab fires no
    [onIndexChange]. *)
Theorem press_fires_index_change_iff (props : Props) (i : Z) (st : State) :
  let t := trace_of (_handleTabPress props i st) in
  (In (EOnIndexChange i) t <-> i <> index (navigationState props))
  /\ (i <> index (navigationState props) ->
      exists rest, t = EOnIndexChange i :: rest
                   /\ forall j, ~ In (EOnIndexChange j) rest)
  /\ (i = index (navigationState props) -> forall j, ~ In (EOnIndexChange j) t)
  /\ final_state (_handleTabPress props i st) = st.
Proof.
  intros t. unfold t. rewrite handleTabPress_unfold. unfold trace_of, final_state. simpl.
  set (tail := if hasOnTabPress props
               then [EOnTabPress (js_get (routes (navigationState props)) i)]
               else []).
  assert (Htail : forall j, ~ In (EOnIndexChange j) tail).
  { intros j. unfold tail. destruct (hasOnTabPress props); simpl.
    - intros [H | []]. discriminate.
    - intros []. }
  destruct (Z.eqb_spec i (index (navigationState props))) as [Heq | Hne]; simpl.
  - split; [split; [intros H; apply Htail in H; contradiction | intros H; contradiction] |].
    split; [intros H; contradiction |].
    split; [intros _; exact Htail | reflexivity].
  - split; [split; [intros _; exact Hne | intros _; left; reflexivity] |].
    split; [intros _; exists tail; split; [reflexivity | exact Htail] |].
    split; [intros H; contradiction | reflexivity].
Qed.

Lemma press_fires_index_change_iff_witness :
  In (EOnIndexChange 2)
     (trace_of (_handleTabPress (props_music 1) 2 (constructor (props_music 1))))
  /\ forall j, ~ In (EOnIndexChange j)
                 (trace_of (_handleTabPress (props_abc 1) 1 (constructor (props_abc 1)))).
Proof.
  split.
  - apply (press_fires_index_change_iff (props_music 1) 2 (constructor (props_music 1))).
    simpl. lia.
  - apply (press_fires_index_change_iff (props_abc 1) 1 (constructor (props_abc 1))).
    reflexivity.
Defined.

(** C7. When the host supplies [onTabPress], a press on the tab of route
    index [i] fires [onTabPress] with the route at [i], once, whether or
    not [i] is the active index. *)
Theorem onTabPress_on_every_press (props : Props) (i : nat) (route : Route) (st : State) :
  hasOnTabPress props = true ->
  routes (navigationState props) !! i = Some route ->
  let t := trace_of (_handleTabPress props (Z.of_nat i) st) in
  In (EOnTabPress (Some route)) t
  /\ (forall r, In (EOnTabPress r) t -> r = Some route)
  /\ (exists before, t = before ++ [EOnTabPress (Some route)]
                     /\ forall r, ~ In (EOnTabPress r) before)
  /\ (Z.of_nat i = index (navigationState props) -> t = [EOnTabPress (Some route)])
  /\ (Z.of_nat i <> index (navigationState props) ->
      t = [EOnIndexChange (Z.of_nat i); EOnTabPress (Some route)]).
Proof.
  intros Hcb Hroute t. unfold t. rewrite handleTabPress_unfold, Hcb.
  assert (Hget : js_get (routes (navigationState props)) (Z.of_nat i) = Some route).
  { unfold js_get. destruct (Z.ltb_spec (Z.of_nat i) 0); [lia |].
    rewrite Nat2Z.id. exact Hroute. }
  rewrite Hget. unfold trace_of. simpl.
  destruct (Z.eqb_spec (Z.of_nat i) (index (navigationState props))) as [Heq | Hne]; simpl.
  - split; [left; reflexivity |].
    split; [intros r [Hr | []]; congruence |].
    split; [exists []; split; [reflexivity | intros r []] |].
    split; [reflexivity | intros Hne; contradiction].
  - split; [right; left; reflexivity |].
    split; [intros r [Hr | [Hr | []]]; congruence |].
    split; [exists [EOnIndexChange (Z.of_nat i)]; split;
            [reflexivity | intros r [Hr | []]; discriminate] |].
    split; [intros Heq; contradiction | reflexivity].
Qed.

Lemma onTabPress_on_every_press_witness :
  In (EOnTabPress (Some (route_of_key "b")))
     (trace_of (_handleTabPress (props_abc 1) 1 (constructor (props_abc 1))))
  /\ In (EOnTabPress (Some (route_of_key "b")))
        (trace_of (_handleTabPress (props_abc 0) 1 (constructor (props_abc 0)))).
Proof.
  split.
  - apply (onTabPress_on_every_press (props_abc 1) 1%nat (route_of_key "b")
             (constructor (props_abc 1))); reflexivity.
  - apply (onTabPress_on_every_press (props_abc 0) 1%nat (route_of_key "b")
             (constructor (props_abc 0))); reflexivity.
Defined.

(** Without the callback a press fires no [onTabPress]. *)
Lemma onTabPress_absent (props : Props) (i : Z) (st : State) (r : option Route) :
  hasOnTabPress props = false ->
  ~ In (EOnTabPress r) (trace_of (_handleTabPress props i st)).
Proof.
  intros Hcb. rewrite handleTabPress_unfold, Hcb. unfold trace_of. simpl.
  destruct (i =? index (navigationState props)); simpl.
  - intros [].
  - intros [H | []]. discriminate.
Qed.

(** ** The transition on an index change *)

Lemma componentDidUpdate_changed (prevProps props : Props) (st : State) :
  index (navigationState prevProps) <> index (navigationState props) ->
  componentDidUpdate prevProps props st =
  (tt, write_cell RippleCell MIN_RIPPLE_SCALE st,
   [ESetValue RippleCell MIN_RIPPLE_SCALE;
    EStart (transition_plan (navigationState props)
              (write_cell RippleCell MIN_RIPPLE_SCALE st))
           (index (navigationState props))]).
Proof.
  intros Hne. unfold componentDidUpdate.
  destruct (Z.eqb_spec (index (navigationState prevProps)) (index (navigationState props)));
    [contradiction | reflexivity].
Qed.

Lemma componentDidUpdate_unchanged (prevProps props : Props) (st : State) :
  index (navigationState prevProps) = index (navigationState props) ->
  componentDidUpdate prevProps props st = (tt, st, []).
Proof.
  intros Heq. unfold componentDidUpdate. rewrite Heq, Z.eqb_refl. reflexivity.
Qed.

Lemma tabs_ref_in_range (st : State) (i : nat) :
  (i < length (tabs st))%nat -> tabs_ref st i = Some (TabCell i).
Proof.
  intros Hi. unfold tabs_ref.
  destruct (lookup_lt_is_Some_2 (tabs st) i Hi) as [x Hx]. rewrite Hx. reflexivity.
Qed.

Lemma shifts_ref_in_range (st : State) (i : nat) :
  (i < length (shifts st))%nat -> shifts_ref st i = Some (ShiftCell i).
Proof.
  intros Hi. unfold shifts_ref.
  destruct (lookup_lt_is_Some_2 (shifts st) i Hi) as [x Hx]. rewrite Hx. reflexivity.
Qed.

Section Plan.
Variables (nav : NavigationState) (st : State).
Let n := length (routes nav).

Lemma transition_plan_length : length (transition_plan nav st) = (2 * n + 1)%nat.
Proof.
  unfold transition_plan. rewrite !length_app, !length_imap. simpl. unfold n. lia.
Qed.

Lemma transition_plan_focus (i : nat) :
  (i < n)%nat ->
  transition_plan nav st !! i =
  Some (mkTiming (tabs_ref st i) (focus_target (index nav) i) 200 true).
Proof.
  intros Hi. unfold transition_plan.
  rewrite lookup_app_l by (rewrite length_imap; exact Hi).
  rewrite list_lookup_imap.
  destruct (lookup_lt_is_Some_2 (routes nav) i Hi) as [r Hr]. rewrite Hr. reflexivity.
Qed.

Lemma transition_plan_shift (i : nat) :
  (i < n)%nat ->
  transition_plan nav st !! (n + i)%nat =
  Some (mkTiming (shifts_ref st i) (shift_target (index nav) i (route_count nav)) 200 true).
Proof.
  intros Hi. unfold transition_plan.
  rewrite lookup_app_r by (rewrite length_imap; fold n; lia).
  rewrite length_imap. fold n. replace (n + i - n)%nat with i by lia.
  rewrite lookup_app_l by (rewrite length_imap; exact Hi).
  rewrite list_lookup_imap.
  destruct (lookup_lt_is_Some_2 (routes nav) i Hi) as [r Hr]. rewrite Hr. reflexivity.
Qed.

Lemma transition_plan_ripple :
  transition_plan nav st !! (2 * n)%nat = Some (mkTiming (Some RippleCell) 1 300 true).
Proof.
  unfold transition_plan.
  rewrite lookup_app_r by (rewrite length_imap; fold n; lia).
  rewrite length_imap. fold n.
  rewrite lookup_app_r by (rewrite length_imap; fold n; lia).
  rewrite length_imap. fold n. replace (2 * n - n - n)%nat with 0%nat by lia.
  reflexivity.
Qed.

(** The targets of the plan are the rest values the constructor gives
    the cells for the same navigation state. *)
Lemma transition_plan_targets (props : Props) :
  navigationState props = nav ->
  map toValue (transition_plan nav st) =
  tabs (constructor props) ++ shifts (constructor props) ++ [1%Q].
Proof.
  intros <-. unfold transition_plan, constructor. simpl.
  rewrite !map_app. simpl. f_equal; [| f_equal].
  - apply list_eq. intros i.
    rewrite list_lookup_fmap, !list_lookup_imap.
    destruct (routes (navigationState props) !! i); reflexivity.
  - apply list_eq. intros i.
    rewrite list_lookup_fmap, !list_lookup_imap.
    destruct (routes (navigationState props) !! i); reflexivity.
Qed.
End Plan.

(** C2. When the index of the navigation state changes, [componentDidUpdate]
    first sets the ripple cell to [MIN_RIPPLE_SCALE] (0.1) with a plain
    [setValue], and then starts one parallel plan that holds, for every route
    index [i], a timing of [tabs[i]] toward 1 if [i] is the new index and 0
    otherwise over 200, and a timing of [shifts[i]] toward
    [_getShiftAmount newIndex i routeCount] over 200, and a timing of the
    ripple cell toward 1 over 300 -- and nothing else.  The state holds one
    focus cell and one shift cell per route. *)
Theorem index_change_starts_plan (prevProps props : Props) (st : State) :
  let nav := navigationState props in
  let n := length (routes nav) in
  let r := componentDidUpdate prevProps props st in
  index (navigationState prevProps) <> index nav ->
  length (tabs st) = n ->
  length (shifts st) = n ->
  exists plan : list Timing,
    trace_of r = [ESetValue RippleCell MIN_RIPPLE_SCALE; EStart plan (index nav)]
    /\ MIN_RIPPLE_SCALE = (1 # 10)
    /\ ripple (final_state r) = MIN_RIPPLE_SCALE
    /\ tabs (final_state r) = tabs st
    /\ shifts (final_state r) = shifts st
    /\ anim_index (final_state r) = anim_index st
    /\ layout (final_state r) = layout st
    /\ length plan = (2 * n + 1)%nat
    /\ (forall i : nat, (i < n)%nat ->
          plan !! i =
          Some (mkTiming (Some (TabCell i))
                         (if Z.of_nat i =? index nav then 1 else 0)%Q 200 true)
          /\ plan !! (n + i)%nat =
             Some (mkTiming (Some (ShiftCell i))
                            (inject_Z (_getShiftAmount (index nav) (Z.of_nat i) (Z.of_nat n)))
                            200 true))
    /\ plan !! (2 * n)%nat = Some (mkTiming (Some RippleCell) 1 300 true).
Proof.
  intros nav n r Hne Htabs Hshifts. subst r n.
  rewrite (componentDidUpdate_changed _ _ _ Hne). fold nav.
  set (st1 := write_cell RippleCell MIN_RIPPLE_SCALE st).
  exists (transition_plan nav st1).
  repeat split.
  - apply transition_plan_length.
  - rewrite transition_plan_focus by exact H.
    rewrite tabs_ref_in_range by (simpl; lia). reflexivity.
  - rewrite transition_plan_shift by exact H.
    rewrite shifts_ref_in_range by (simpl; lia). reflexivity.
  - apply transition_plan_ripple.
Qed.

Lemma index_change_starts_plan_witness :
  exists plan : list Timing,
    trace_of (componentDidUpdate (props_music 0) (props_music 2) (constructor (props_music 0)))
    = [ESetValue RippleCell MIN_RIPPLE_SCALE; EStart plan 2]
    /\ plan !! 2%nat = Some (mkTiming (Some (TabCell 2)) 1 200 true)
    /\ plan !! 7%nat = Some (mkTiming (Some (ShiftCell 3)) 2 200 true)
    /\ plan !! 8%nat = Some (mkTiming (Some RippleCell) 1 300 true).
Proof.
  destruct (index_change_starts_plan (props_music 0) (props_music 2)
              (constructor (props_music 0)))
    as (plan & Htrace & _ & _ & _ & _ & _ & _ & _ & Hcells & Hripple).
  - simpl. lia.
  - reflexivity.
  - reflexivity.
  - exists plan. split; [exact Htrace |]. split; [| split].
    + apply (Hcells 2%nat). simpl. lia.
    + apply (Hcells 3%nat). simpl. lia.
    + exact Hripple.
Defined.

(** ** Completion *)

(** Running [setValue] over the focus cells from position [k] on rewrites
    exactly those cells, in order. *)
Lemma forEach_setValue_tabs (f : nat -> Q) (arr : list Q) :
  forall (k : nat) (pre old : list Q) (sh : list Q) (ix rp : Q) (ly : Layout),
    length pre = k ->
    length old = length arr ->
    forEach_from (fun _ i => setValue (TabCell i) (f i)) arr k
                 (mkState (pre ++ old) sh ix rp ly) =
    (tt,
     mkState (pre ++ imap (fun j _ => f (k + j)%nat) arr) sh ix rp ly,
     imap (fun j _ => ESetValue (TabCell (k + j)) (f (k + j)%nat)) arr).
Proof.
  induction arr as [| x rest IH]; intros k pre old sh ix rp ly Hpre Hold.
  - destruct old; [| discriminate]. reflexivity.
  - destruct old as [| y old]; [discriminate |].
    simpl in Hold. injection Hold as Hold.
    cbn [forEach_from]. unfold bind at 1. unfold setValue at 1. cbn [write_cell tabs shifts anim_index ripple layout].
    rewrite insert_app_r_alt by lia.
    replace (k - length pre)%nat with 0%nat by lia. cbn [list_insert insert].
    change (pre ++ f k :: old) with (pre ++ [f k] ++ old).
    rewrite app_assoc.
    rewrite (IH (S k) (pre ++ [f k]) old) by (rewrite ?length_app; simpl; lia).
    rewrite <- app_assoc. cbn [app imap].
    rewrite Nat.add_0_r.
    rewrite (imap_ext (fun j _ => f (S k + j)%nat)
                      ((fun j (_ : Q) => f (k + j)%nat) ∘ S) rest)
      by (intros j z _; simpl; f_equal; lia).
    rewrite (imap_ext (fun j _ => ESetValue (TabCell (S k + j)) (f (S k + j)%nat))
                      ((fun j (_ : Q) => ESetValue (TabCell (k + j)) (f (k + j)%nat)) ∘ S)
                      rest)
      by (intros j z _; simpl; replace (k + S j)%nat with (S (k + j)) by lia; reflexivity).
    reflexivity.
Qed.

(** The completion callback written out. *)
Lemma start_callback_unfold (idx : Z) (st : State) :
  start_callback idx st =
  (tt,
   mkState (imap (fun i _ => focus_target idx i) (tabs st)) (shifts st)
           (inject_Z idx) MIN_RIPPLE_SCALE (layout st),
   imap (fun i _ => ESetValue (TabCell i) (focus_target idx i)) (tabs st)
   ++ [ESetValue IndexCell (inject_Z idx); ESetValue RippleCell MIN_RIPPLE_SCALE]).
Proof.
  destruct st as [tb sh ix rp ly].
  pose proof (forEach_setValue_tabs (focus_target idx) tb 0 [] tb sh ix rp ly
                eq_refl eq_refl) as Hloop.
  cbn [app Nat.add] in Hloop.
  unfold start_callback, bind, forEach. cbn [tabs].
  rewrite Hloop. reflexivity.
Qed.

(** C3. Once a plan toward the new index has been started and is reported
    complete, the callback leaves [tabs[newIndex]] at 1 and the focus cell
    of every other route at 0, [state.index] at the new index and the
    ripple at [MIN_RIPPLE_SCALE] -- whatever the cells held when it ran.
    [stc] is the state the executor left; the state holds one focus cell
    per route and the new index is an index of the route list. *)
Theorem completion_convergence (prevProps props : Props) (st stc : State) :
  let nav := navigationState props in
  let newIndex := index nav in
  let fin := final_state (start_callback newIndex stc) in
  index (navigationState prevProps) <> newIndex ->
  length (tabs stc) = length (routes nav) ->
  0 <= newIndex < route_count nav ->
  (exists plan, In (EStart plan newIndex)
                   (trace_of (componentDidUpdate prevProps props st)))
  /\ js_get (tabs fin) newIndex = Some 1%Q
  /\ (forall (i : nat) (r : Route),
        routes nav !! i = Some r ->
        tabs fin !! i = Some (if Z.of_nat i =? newIndex then 1 else 0)%Q)
  /\ (forall (i : nat) (r : Route),
        routes nav !! i = Some r -> Z.of_nat i <> newIndex -> tabs fin !! i = Some 0%Q)
  /\ length (tabs fin) = length (routes nav)
  /\ anim_index fin = inject_Z newIndex
  /\ ripple fin = MIN_RIPPLE_SCALE
  /\ shifts fin = shifts stc
  /\ layout fin = layout stc.
Proof.
  intros nav newIndex fin Hne Hlen Hrange. subst fin.
  rewrite start_callback_unfold. unfold final_state. cbn [fst snd tabs shifts anim_index ripple layout].
  assert (Hcell : forall i : nat, (i < length (routes nav))%nat ->
            imap (fun i0 _ => focus_target newIndex i0) (tabs stc) !! i
            = Some (focus_target newIndex i)).
  { intros i Hi. rewrite list_lookup_imap.
    destruct (lookup_lt_is_Some_2 (tabs stc) i) as [x Hx]; [lia |].
    rewrite Hx. reflexivity. }
  split.
  { rewrite (componentDidUpdate_changed _ _ _ Hne). eexists. right. left. reflexivity. }
  split.
  { unfold js_get. destruct (Z.ltb_spec newIndex 0); [lia |].
    rewrite Hcell by (unfold route_count in Hrange; lia).
    unfold focus_target. rewrite Z2Nat.id by lia. rewrite Z.eqb_refl. reflexivity. }
  split.
  { intros i r Hr. apply lookup_lt_Some in Hr. rewrite Hcell by exact Hr. reflexivity. }
  split.
  { intros i r Hr Hi. apply lookup_lt_Some in Hr. rewrite Hcell by exact Hr.
    unfold focus_target. destruct (Z.eqb_spec (Z.of_nat i) newIndex); [contradiction | reflexivity]. }
  split; [rewrite length_imap; exact Hlen |].
  repeat split.
Qed.

(** The state an executor may leave behind: every cell somewhere else. *)
Definition scrambled_state : State :=
  mkState [(1 # 3); (7 # 8); (2 # 5); 0]%Q [(3 # 2); 0; (-1 # 2); 1]%Q (5 # 4) (9 # 10)
          (mkLayout 56 400 true).

Lemma completion_convergence_witness :
  let fin := final_state (start_callback 2 scrambled_state) in
  tabs fin !! 2%nat = Some 1%Q
  /\ tabs fin !! 0%nat = Some 0%Q
  /\ tabs fin !! 3%nat = Some 0%Q
  /\ anim_index fin = 2%Q
  /\ ripple fin = (1 # 10)%Q.
Proof.
  destruct (completion_convergence (props_music 0) (props_music 2)
              (constructor (props_music 0)) scrambled_state)
    as (_ & _ & Hcells & _ & _ & Hidx & Hripple & _).
  - simpl. lia.
  - reflexivity.
  - vm_compute. split; [discriminate | reflexivity].
  - split; [exact (Hcells 2%nat _ eq_refl) |].
    split; [exact (Hcells 0%nat _ eq_refl) |].
    split; [exact (Hcells 3%nat _ eq_refl) |].
    split; [exact Hidx | exact Hripple].
Defined.

(** ** An update that leaves the index as it was *)

(** The specification's statement that an update with an unchanged index
    still resets the ripple and still produces a plan. *)
Definition unchanged_index_resets_and_plans (props : Props) (st : State) : Prop :=
  let r := componentDidUpdate props props st in
  ripple (final_state r) = MIN_RIPPLE_SCALE
  /\ exists plan idx, In (EStart plan idx) (trace_of r).

(** A ripple caught half way by a re-render with the same index. *)
Definition mid_ripple_state : State :=
  write_cell RippleCell (1 # 2) (constructor (props_music 1)).

Lemma unchanged_index_keeps_ripple :
  ripple (final_state (componentDidUpdate (props_music 1) (props_music 1) mid_ripple_state))
  = (1 # 2)%Q
  /\ trace_of (componentDidUpdate (props_music 1) (props_music 1) mid_ripple_state) = []
  /\ ~ unchanged_index_resets_and_plans (props_music 1) mid_ripple_state.
Proof.
  split; [reflexivity |]. split; [reflexivity |].
  intros [Hripple _]. vm_compute in Hripple. discriminate.
Qed.

(** C6, amended. An update whose previous index equals the new index does
    nothing at all: the ripple is not reset, no plan is produced, and the
    state, ripple included, is what it was.  (Whenever a plan toward an
    index is produced, its focus and shift targets are the rest values the
    constructor gives those cells for that index.) *)
Theorem unchanged_index_is_noop (prevProps props : Props) (st : State) :
  index (navigationState prevProps) = index (navigationState props) ->
  componentDidUpdate prevProps props st = (tt, st, [])
  /\ final_state (componentDidUpdate prevProps props st) = st
  /\ trace_of (componentDidUpdate prevProps props st) = []
  /\ (forall st' : State,
        map toValue (transition_plan (navigationState props) st')
        = tabs (constructor props) ++ shifts (constructor props) ++ [1%Q]).
Proof.
  intros Heq. rewrite (componentDidUpdate_unchanged _ _ _ Heq).
  repeat split.
  intros st'. apply transition_plan_targets. reflexivity.
Qed.

Lemma unchanged_index_is_noop_witness :
  componentDidUpdate (props_music 1) (props_music 1) mid_ripple_state
  = (tt, mid_ripple_state, []).
Proof.
  apply (unchanged_index_is_noop (props_music 1) (props_music 1) mid_ripple_state).
  reflexivity.
Defined.

(** ** Touches and the first layout *)

Lemma handleLayout_measured (h w : Q) (st : State) :
  layout (final_state (_handleLayout h w st)) = mkLayout h w true.
Proof. reflexivity. Qed.

Lemma write_cell_layout (c : Cell) (v : Q) (st : State) :
  layout (write_cell c v st) = layout st.
Proof. destruct c; reflexivity. Qed.

Lemma componentDidUpdate_layout (prevProps props : Props) (st : State) :
  layout (final_state (componentDidUpdate prevProps props st)) = layout st.
Proof.
  destruct (Z.eq_dec (index (navigationState prevProps)) (index (navigationState props)))
    as [Heq | Hne].
  - rewrite (componentDidUpdate_unchanged _ _ _ Heq). reflexivity.
  - rewrite (componentDidUpdate_changed _ _ _ Hne). reflexivity.
Qed.

(** Only [onLayout] touches the layout. *)
Lemma deliver_layout (cfg cfg' : Config) (inp : Input) (t : list Effect) :
  deliver cfg inp = Some (cfg', t) ->
  is_layout inp = false ->
  layout (cfg_state cfg') = layout (cfg_state cfg).
Proof.
  intros Hd Hnl. destruct inp as [h w | i | k | p | c v | idx]; simpl in Hd.
  - discriminate.
  - destruct (pointerEvents (cfg_state cfg)); [| discriminate].
    destruct (i <? length (routes (navigationState (cfg_props cfg))))%nat; [| discriminate].
    injection Hd as <- _. unfold run_method. rewrite handleTabPress_unfold. reflexivity.
  - injection Hd as <- _. reflexivity.
  - injection Hd as <- _. apply componentDidUpdate_layout.
  - injection Hd as <- _. apply write_cell_layout.
  - destruct (bool_decide (idx ∈ cfg_pending cfg)); [| discriminate].
    injection Hd as <- _. simpl. rewrite start_callback_unfold. reflexivity.
Qed.

(** [measured] only ever goes from [false] to [true], and it is the
    layout callback that raises it. *)
Lemma deliver_measured (cfg cfg' : Config) (inp : Input) (t : list Effect) :
  deliver cfg inp = Some (cfg', t) ->
  measured (layout (cfg_state cfg'))
  = measured (layout (cfg_state cfg)) || is_layout inp.
Proof.
  intros Hd. destruct (is_layout inp) eqn:Hl.
  - destruct inp; try discriminate. simpl in Hd. injection Hd as <- _.
    simpl. rewrite orb_true_r. reflexivity.
  - rewrite (deliver_layout _ _ _ _ Hd Hl), orb_false_r. reflexivity.
Qed.

Lemma run_inputs_measured (ins : list Input) :
  forall (cfg cfg' : Config) (t : list Effect),
    run_inputs cfg ins = Some (cfg', t) ->
    measured (layout (cfg_state cfg'))
    = measured (layout (cfg_state cfg)) || existsb is_layout ins.
Proof.
  induction ins as [| inp rest IH]; intros cfg cfg' t Hrun; simpl in Hrun.
  - injection Hrun as <- _. simpl. rewrite orb_false_r. reflexivity.
  - destruct (deliver cfg inp) as [[cfg1 t1] |] eqn:Hd; [| discriminate].
    destruct (run_inputs cfg1 rest) as [[cfg2 t2] |] eqn:Hr; [| discriminate].
    injection Hrun as <- _.
    rewrite (IH _ _ _ Hr), (deliver_measured _ _ _ _ Hd). simpl.
    rewrite orb_assoc. reflexivity.
Qed.

Lemma run_inputs_app (a b : list Input) :
  forall (cfg cfg2 : Config) (t : list Effect),
    run_inputs cfg (a ++ b) = Some (cfg2, t) ->
    exists cfg1 t1 t2,
      run_inputs cfg a = Some (cfg1, t1)
      /\ run_inputs cfg1 b = Some (cfg2, t2)
      /\ t = t1 ++ t2.
Proof.
  induction a as [| inp rest IH]; intros cfg cfg2 t Hrun; simpl in *.
  - exists cfg, [], t. repeat split. exact Hrun.
  - destruct (deliver cfg inp) as [[cfg1 t1] |]; [| discriminate].
    destruct (run_inputs cfg1 (rest ++ b)) as [[cfg3 t3] |] eqn:Hr; [| discriminate].
    injection Hrun as <- <-.
    destruct (IH _ _ _ Hr) as (cfgm & ta & tb & Ha & Hb & ->).
    exists cfgm, (t1 ++ ta), tb. rewrite Ha. repeat split; [exact Hb |].
    rewrite app_assoc. reflexivity.
Qed.

Lemma existsb_is_layout (ins : list Input) :
  existsb is_layout ins = true <-> exists h w, In (ILayout h w) ins.
Proof.
  rewrite existsb_exists. split.
  - intros (inp & Hin & Hl). destruct inp; try discriminate. eauto.
  - intros (h & w & Hin). exists (ILayout h w). split; [exact Hin | reflexivity].
Qed.

(** A press is delivered only to a measured component. *)
Lemma deliver_press_measured (cfg cfg' : Config) (i : nat) (t : list Effect) :
  deliver cfg (IPress i) = Some (cfg', t) ->
  measured (layout (cfg_state cfg)) = true.
Proof.
  simpl. unfold pointerEvents.
  destruct (measured (layout (cfg_state cfg))); [reflexivity | discriminate].
Qed.

(** The calls toward the host come from presses and from [jumpTo] only,
    and [onTabPress] from presses only. *)
Lemma deliver_host_calls (cfg cfg' : Config) (inp : Input) (t : list Effect) (e : Effect) :
  deliver cfg inp = Some (cfg', t) ->
  In e t ->
  is_host_call e = true ->
  is_press inp = true \/ (is_jump inp = true /\ exists i, e = EOnIndexChange i).
Proof.
  intros Hd Hin He. destruct inp as [h w | i | k | p | c v | idx]; simpl in Hd.
  - injection Hd as _ <-. destruct Hin.
  - left. reflexivity.
  - injection Hd as _ <-. destruct Hin as [<- | []]. right. eauto.
  - injection Hd as _ <-.
    destruct (Z.eq_dec (index (navigationState (cfg_props cfg))) (index (navigationState p)))
      as [Heq | Hne].
    + rewrite (componentDidUpdate_unchanged _ _ _ Heq) in Hin. destruct Hin.
    + rewrite (componentDidUpdate_changed _ _ _ Hne) in Hin.
      destruct Hin as [<- | [<- | []]]; discriminate.
  - injection Hd as _ <-. destruct Hin.
  - destruct (bool_decide (idx ∈ cfg_pending cfg)); [| discriminate].
    injection Hd as _ <-. rewrite start_callback_unfold in Hin. unfold trace_of in Hin.
    simpl in Hin. apply in_app_or in Hin as [Hin | [<- | [<- | []]]]; try discriminate.
    apply list_elem_of_In, elem_of_lookup_imap in Hin as (j & x & -> & _). discriminate.
Qed.

Lemma run_inputs_host_calls (ins : list Input) :
  forall (cfg cfg' : Config) (t : list Effect) (e : Effect),
    run_inputs cfg ins = Some (cfg', t) ->
    In e t ->
    is_host_call e = true ->
    (exists i, In (IPress i) ins)
    \/ ((exists k, In (IJumpTo k) ins) /\ exists i, e = EOnIndexChange i).
Proof.
  induction ins as [| inp rest IH]; intros cfg cfg' t e Hrun Hin He; simpl in Hrun.
  - injection Hrun as _ <-. destruct Hin.
  - destruct (deliver cfg inp) as [[cfg1 t1] |] eqn:Hd; [| discriminate].
    destruct (run_inputs cfg1 rest) as [[cfg2 t2] |] eqn:Hr; [| discriminate].
    injection Hrun as _ <-. apply in_app_or in Hin as [Hin | Hin].
    + destruct (deliver_host_calls _ _ _ _ _ Hd Hin He) as [Hp | [Hj Hi]].
      * left. destruct inp; try discriminate. eexists. left. reflexivity.
      * right. split; [| exact Hi]. destruct inp; try discriminate.
        eexists. left. reflexivity.
    + destruct (IH _ _ _ _ Hr Hin He) as [[i Hi] | [[k Hk] Hi]].
      * left. exists i. right. exact Hi.
      * right. split; [exists k; right; exact Hk | exact Hi].
Qed.

(** C10. No touch is taken before the first layout.  A freshly mounted
    component has [measured = false] and renders its root view with
    [pointerEvents = 'none'], so no press can be delivered to it; in every
    run, each press has a layout callback before it, and a run with no
    layout callback contains no press, fires no [onTabPress], and fires
    [onIndexChange] only on behalf of [jumpTo]; [measured] is [true] at the
    end of a run exactly when a layout callback occurred in it, so nothing
    ever sets it back. *)
Theorem no_press_before_layout
        (props : Props) (ins : list Input) (cfg : Config) (t : list Effect) :
  run_inputs (mount props) ins = Some (cfg, t) ->
  measured (layout (cfg_state (mount props))) = false
  /\ pointerEvents (cfg_state (mount props)) = PENone
  /\ (forall i, deliver (mount props) (IPress i) = None)
  /\ (forall pre i post,
        ins = pre ++ IPress i :: post -> exists h w, In (ILayout h w) pre)
  /\ ((forall h w, ~ In (ILayout h w) ins) ->
      (forall i, ~ In (IPress i) ins)
      /\ (forall r, ~ In (EOnTabPress r) t)
      /\ (forall e, In e t -> is_host_call e = true -> exists k, In (IJumpTo k) ins))
  /\ (measured (layout (cfg_state cfg)) = true <-> exists h w, In (ILayout h w) ins).
Proof.
  intros Hrun.
  assert (Hpre : forall pre i post,
             ins = pre ++ IPress i :: post -> exists h w, In (ILayout h w) pre).
  { intros pre i post ->.
    destruct (run_inputs_app _ _ _ _ _ Hrun) as (cfg1 & t1 & t2 & Ha & Hb & _).
    cbn [run_inputs] in Hb.
    destruct (deliver cfg1 (IPress i)) as [[cfg2 t3] |] eqn:Hd; [| discriminate].
    apply deliver_press_measured in Hd.
    rewrite (run_inputs_measured _ _ _ _ Ha) in Hd. simpl in Hd.
    apply existsb_is_layout, Hd. }
  assert (Hnopress : (forall h w, ~ In (ILayout h w) ins) -> forall i, ~ In (IPress i) ins).
  { intros Hnl i Hin. apply in_split in Hin as (pre & post & Heq).
    destruct (Hpre _ _ _ Heq) as (h & w & Hin).
    apply (Hnl h w). rewrite Heq. apply in_or_app. left. exact Hin. }
  split; [reflexivity |]. split; [reflexivity |]. split; [reflexivity |].
  split; [exact Hpre |]. split.
  - intros Hnl. split; [exact (Hnopress Hnl) |]. split.
    + intros r Hin.
      destruct (run_inputs_host_calls _ _ _ _ _ Hrun Hin eq_refl)
        as [[i Hi] | [_ [i Hi]]]; [exact (Hnopress Hnl i Hi) | discriminate Hi].
    + intros e Hin He.
      destruct (run_inputs_host_calls _ _ _ _ _ Hrun Hin He) as [[i Hi] | [Hk _]];
        [| exact Hk].
      destruct (Hnopress Hnl i Hi).
  - rewrite (run_inputs_measured _ _ _ _ Hrun). simpl. apply existsb_is_layout.
Qed.

Lemma no_press_before_layout_witness :
  exists cfg t,
    run_inputs (mount (props_abc 0)) [IJumpTo "c"; ILayout 56 400; IPress 1; IAnimate RippleCell (1 # 2)]
    = Some (cfg, t)
    /\ t = [EOnIndexChange 2; EOnIndexChange 1; EOnTabPress (Some (route_of_key "b"))]
    /\ measured (layout (cfg_state cfg)) = true
    /\ run_inputs (mount (props_abc 0)) [IJumpTo "c"; IPress 1; ILayout 56 400] = None.
Proof.
  eexists. eexists. split; [reflexivity |]. split; [reflexivity |]. split; [| reflexivity].
  apply (no_press_before_layout (props_abc 0)
           [IJumpTo "c"; ILayout 56 400; IPress 1; IAnimate RippleCell (1 # 2)]
           _ _ eq_refl).
  exists 56%Q, 400%Q. right. left. reflexivity.
Defined.

(** ** One cell per route

    The arrays of focus and shift cells are built by the constructor, one
    entry per route, and no method or executor step changes their length:
    as long as the host keeps the number of routes, the state holds one
    focus cell and one shift cell per route. *)




(** * Further properties of the component *)

(** ** The shape of the shift offsets *)

Lemma shiftAmount_nondecreasing (a i j n : Z) :
  i <= j -> _getShiftAmount a i n <= _getShiftAmount a j n.
Proof.
  intros Hij. rewrite !shiftAmount_refines. unfold Spec.shiftAmount.
  repeat match goal with
         | |- context [?x <? ?y] => destruct (Z.ltb_spec x y)
         | |- context [?x =? ?y] => destruct (Z.eqb_spec x y)
         end; lia.
Qed.

(** X1. The rest offsets never reorder the tabs: for a fixed active index
    the shift amount does not decrease from one tab position to the next
    -- every tab left of the active one sits at [-2], every tab right of
    it at [2], and the active one in between. *)
Theorem shiftAmount_monotone (a i j n : Z) :
  i <= j ->
  _getShiftAmount a i n <= _getShiftAmount a j n
  /\ (i < a -> _getShiftAmount a i n = -2)
  /\ (a < j -> _getShiftAmount a j n = 2)
  /\ -1 <= _getShiftAmount a a n <= 1.
Proof.
  intros Hij. rewrite !shiftAmount_refines. unfold Spec.shiftAmount.
  repeat match goal with
         | |- context [?x <? ?y] => destruct (Z.ltb_spec x y)
         | |- context [?x =? ?y] => destruct (Z.eqb_spec x y)
         end; lia.
Qed.

Lemma shiftAmount_monotone_witness :
  _getShiftAmount 1 0 4 <= _getShiftAmount 1 1 4
  /\ _getShiftAmount 1 1 4 <= _getShiftAmount 1 3 4.
Proof.
  split.
  - apply (shiftAmount_monotone 1 0 1 4). lia.
  - apply (shiftAmount_monotone 1 1 3 4). lia.
Defined.

(** X2. The offsets are mirror symmetric: with more or fewer than one
    item, reflecting both the active and the current position in the row
    ([k] becomes [n - 1 - k]) negates the shift amount.  With a single
    item the only tab is first and last at once, the test for the first
    position wins, and the symmetry breaks. *)
Theorem shiftAmount_mirror (a c n : Z) :
  n <> 1 ->
  _getShiftAmount (n - 1 - a) (n - 1 - c) n = - _getShiftAmount a c n.
Proof.
  intros Hn. rewrite !shiftAmount_refines. unfold Spec.shiftAmount.
  repeat match goal with
         | |- context [?x <? ?y] => destruct (Z.ltb_spec x y)
         | |- context [?x =? ?y] => destruct (Z.eqb_spec x y)
         end; lia.
Qed.

Lemma shiftAmount_mirror_witness :
  _getShiftAmount (4 - 1 - 0) (4 - 1 - 0) 4 = - _getShiftAmount 0 0 4
  /\ _getShiftAmount (1 - 1 - 0) (1 - 1 - 0) 1 <> - _getShiftAmount 0 0 1.
Proof.
  split.
  - apply (shiftAmount_mirror 0 0 4). lia.
  - vm_compute. discriminate.
Defined.

(** ** What the constructor builds *)

Lemma constructor_tabs_lookup (props : Props) (i : nat) :
  tabs (constructor props) !! i =
  (fun _ => focus_target (index (navigationState props)) i)
    <$> routes (navigationState props) !! i.
Proof. unfold constructor. simpl. apply list_lookup_imap. Qed.

Lemma constructor_shifts_lookup (props : Props) (i : nat) :
  shifts (constructor props) !! i =
  (fun _ => shift_target (index (navigationState props)) i
                         (route_count (navigationState props)))
    <$> routes (navigationState props) !! i.
Proof. unfold constructor. simpl. apply list_lookup_imap. Qed.

(** X3. A freshly constructed component holds one focus cell per route,
    and a focus cell is at 1 exactly when it is the cell of the active
    index, all others are at 0: with an index inside the route list
    exactly one tab is focused, with an index outside it (such as the
    [-1] of a failed lookup) none is. *)
Theorem constructor_focus (props : Props) :
  let nav := navigationState props in
  let st := constructor props in
  length (tabs st) = length (routes nav)
  /\ (forall i : nat, (i < length (routes nav))%nat ->
        tabs st !! i = Some 1%Q \/ tabs st !! i = Some 0%Q)
  /\ (forall i : nat,
        tabs st !! i = Some 1%Q
        <-> (Z.of_nat i = index nav /\ (i < length (routes nav))%nat))
  /\ (0 <= index nav < route_count nav -> js_get (tabs st) (index nav) = Some 1%Q)
  /\ (~ 0 <= index nav < route_count nav ->
      forall i q, tabs st !! i = Some q -> q = 0%Q).
Proof.
  intros nav st. subst st.
  assert (Hlook : forall i, (i < length (routes nav))%nat ->
            tabs (constructor props) !! i = Some (focus_target (index nav) i)).
  { intros i Hi. rewrite constructor_tabs_lookup. fold nav.
    destruct (lookup_lt_is_Some_2 (routes nav) i Hi) as [r ->]. reflexivity. }
  assert (Hiff : forall i : nat,
            tabs (constructor props) !! i = Some 1%Q
            <-> (Z.of_nat i = index nav /\ (i < length (routes nav))%nat)).
  { intros i. split.
    - intros H1.
      assert (Hi : (i < length (routes nav))%nat).
      { apply lookup_lt_Some in H1. unfold constructor in H1. simpl in H1.
        rewrite length_imap in H1. exact H1. }
      split; [| exact Hi]. rewrite (Hlook i Hi) in H1. unfold focus_target in H1.
      destruct (Z.eqb_spec (Z.of_nat i) (index nav)); [assumption | discriminate].
    - intros [Heq Hi]. rewrite (Hlook i Hi). unfold focus_target.
      rewrite Heq, Z.eqb_refl. reflexivity. }
  split; [unfold constructor; simpl; apply length_imap |].
  split.
  { intros i Hi. rewrite (Hlook i Hi). unfold focus_target.
    destruct (Z.of_nat i =? index nav); [left | right]; reflexivity. }
  split; [exact Hiff |].
  split.
  { intros Hrange. unfold js_get. destruct (Z.ltb_spec (index nav) 0); [lia |].
    apply Hiff. unfold route_count in Hrange. split; lia. }
  intros Hout i q Hq.
  assert (Hi : (i < length (routes nav))%nat).
  { apply lookup_lt_Some in Hq. unfold constructor in Hq. simpl in Hq.
    rewrite length_imap in Hq. exact Hq. }
  rewrite (Hlook i Hi) in Hq. injection Hq as <-. unfold focus_target.
  destruct (Z.eqb_spec (Z.of_nat i) (index nav)); [| reflexivity].
  exfalso. apply Hout. unfold route_count. lia.
Qed.

Lemma constructor_focus_witness :
  js_get (tabs (constructor (props_music 2))) 2 = Some 1%Q
  /\ tabs (constructor (props_music (-1))) !! 0%nat = Some 0%Q.
Proof.
  destruct (constructor_focus (props_music 2)) as (_ & _ & _ & Hin & _).
  destruct (constructor_focus (props_music (-1))) as (_ & _ & _ & _ & Hout).
  split.
  - apply Hin. vm_compute. split; [discriminate | reflexivity].
  - destruct (tabs (constructor (props_music (-1))) !! 0%nat) as [q |] eqn:Hq.
    + rewrite (Hout ltac:(simpl; unfold route_count; simpl; lia) 0%nat q Hq). reflexivity.
    + discriminate Hq.
Defined.

(** X4. A freshly constructed component holds one shift cell per route;
    the cells of the routes before the active index are at [-2], those
    after it at [2], every cell lies between [-2] and [2], and the cells
    never decrease from left to right.  [state.index] holds the active
    index, the ripple is at [MIN_RIPPLE_SCALE] and the layout is
    unmeasured. *)
Theorem constructor_shifts (props : Props) :
  let nav := navigationState props in
  let st := constructor props in
  length (shifts st) = length (routes nav)
  /\ (forall (i : nat) (q : Q), shifts st !! i = Some q ->
        (Z.of_nat i < index nav -> q = (-2)%Q)
        /\ (index nav < Z.of_nat i -> q = 2%Q)
        /\ (-2 <= q <= 2)%Q)
  /\ (forall (i j : nat) (p q : Q),
        (i <= j)%nat -> shifts st !! i = Some p -> shifts st !! j = Some q -> (p <= q)%Q)
  /\ anim_index st = inject_Z (index nav)
  /\ ripple st = MIN_RIPPLE_SCALE
  /\ layout st = mkLayout 0 0 false.
Proof.
  intros nav st. subst st.
  assert (Hlook : forall i q, shifts (constructor props) !! i = Some q ->
            q = inject_Z (_getShiftAmount (index nav) (Z.of_nat i) (route_count nav))).
  { intros i q Hq. rewrite constructor_shifts_lookup in Hq. fold nav in Hq.
    destruct (routes nav !! i); [| discriminate]. injection Hq as <-. reflexivity. }
  split; [unfold constructor; simpl; apply length_imap |].
  split.
  { intros i q Hq. rewrite (Hlook i q Hq).
    pose proof (shiftAmount_range (index nav) (Z.of_nat i) (route_count nav)) as Hr.
    rewrite shiftAmount_refines in *. unfold Spec.shiftAmount in *.
    split; [| split].
    - intros Hlt. destruct (Z.ltb_spec (index nav) (Z.of_nat i)); [lia |].
      destruct (Z.ltb_spec (Z.of_nat i) (index nav)); [reflexivity | lia].
    - intros Hlt. destruct (Z.ltb_spec (index nav) (Z.of_nat i)); [reflexivity | lia].
    - change (-2)%Q with (inject_Z (-2)). change 2%Q with (inject_Z 2).
      rewrite <- !Zle_Qle. exact Hr. }
  split.
  { intros i j p q Hij Hp Hq. rewrite (Hlook i p Hp), (Hlook j q Hq).
    rewrite <- Zle_Qle. apply shiftAmount_nondecreasing. lia. }
  repeat split.
Qed.

Lemma constructor_shifts_witness :
  shifts (constructor (props_music 1)) = [-2; 0; 2; 2]%Q
  /\ (forall q, shifts (constructor (props_music 1)) !! 0%nat = Some q -> q = (-2)%Q).
Proof.
  split; [reflexivity |].
  intros q Hq.
  destruct (constructor_shifts (props_music 1)) as (_ & Hcells & _).
  destruct (Hcells 0%nat q Hq) as (Hbefore & _).
  apply Hbefore. simpl. lia.
Defined.

(** ** Tab width and the ripple *)






(** X7. [render] throws in exactly one way while it builds the ripple:
    in shifting mode with an active index that is no index of the route
    list, where it reads [.color] off [undefined].  Outside shifting mode
    it draws no ripple, and in shifting mode with a valid index it draws
    one. *)
Theorem ripple_throws_iff (props : Props) (st : State) :
  let nav := navigationState props in
  (render_ripple props st = JsTypeError
   <-> (render_shifting props = true /\ ~ 0 <= index nav < route_count nav))
  /\ (render_shifting props = false -> render_ripple props st = JsOk None)
  /\ (render_shifting props = true -> 0 <= index nav < route_count nav ->
      exists style, render_ripple props st = JsOk (Some style)).
Proof.
  intros nav. unfold render_ripple. fold nav.
  assert (Hget : js_get (routes nav) (index nav) = None
                 <-> ~ 0 <= index nav < route_count nav).
  { unfold js_get, route_count. destruct (Z.ltb_spec (index nav) 0).
    - split; [lia | reflexivity].
    - rewrite lookup_ge_None. lia. }
  destruct (render_shifting props).
  - destruct (js_get (routes nav) (index nav)) as [route |] eqn:Hroute.
    + split; [split; [discriminate |] |].
      * intros [_ Hout]. apply Hget in Hout. discriminate.
      * split; [discriminate |]. intros _ _. eexists. reflexivity.
    + split; [split; [intros _; split; [reflexivity | apply Hget; reflexivity] | reflexivity] |].
      split; [discriminate |]. intros _ Hin.
      exfalso. apply (proj1 Hget); [reflexivity | exact Hin].
  - split; [split; [discriminate | intros [H _]; discriminate] |].
    split; [reflexivity | discriminate].
Qed.

Lemma ripple_throws_iff_witness :
  render_ripple (props_music (-1)) (constructor (props_music (-1))) = JsTypeError
  /\ render_ripple (props_abc (-1)) (constructor (props_abc (-1))) = JsOk None.
Proof.
  destruct (ripple_throws_iff (props_music (-1)) (constructor (props_music (-1))))
    as (Hthrow & _).
  destruct (ripple_throws_iff (props_abc (-1)) (constructor (props_abc (-1))))
    as (_ & Hnone & _).
  split.
  - apply Hthrow. split; [reflexivity |]. simpl. unfold route_count. simpl. lia.
  - apply Hnone. reflexivity.
Defined.

(** ** [jumpTo] and unique keys *)

(** X8. With unique route keys [jumpTo] finds every route again: called
    with the key of the route at position [i] it fires [onIndexChange(i)],
    once, and nothing else.  It does so even when [i] is the active index,
    where a press on the tab would stay silent, and it never touches the
    component state. *)
Theorem jumpTo_finds_route (props : Props) (i : nat) (r : Route) (st : State) :
  let rs := routes (navigationState props) in
  NoDup (key <$> rs) ->
  rs !! i = Some r ->
  _jumpTo props (key r) st = (tt, st, [EOnIndexChange (Z.of_nat i)])
  /\ js_get rs (findIndex (fun route => String.eqb (key route) (key r)) rs) = Some r.
Proof.
  intros rs Hnodup Hr.
  assert (Hidx : findIndex (fun route => String.eqb (key route) (key r)) rs = Z.of_nat i).
  { unfold findIndex. rewrite (findIndex_from_first _ rs i r 0 Hr).
    - lia.
    - apply String.eqb_refl.
    - intros m y Hm Hy. apply String.eqb_neq. intros Hkey.
      assert (Hmi : m = i).
      { apply (NoDup_lookup (key <$> rs) m i (key r) Hnodup).
        - rewrite list_lookup_fmap, Hy. simpl. congruence.
        - rewrite list_lookup_fmap, Hr. reflexivity. }
      lia. }
  split.
  - unfold _jumpTo, emit. fold rs. rewrite Hidx. reflexivity.
  - rewrite Hidx. unfold js_get. destruct (Z.ltb_spec (Z.of_nat i) 0); [lia |].
    rewrite Nat2Z.id. exact Hr.
Qed.

Lemma jumpTo_finds_route_witness :
  trace_of (_jumpTo (props_music 2) "recents" (constructor (props_music 2)))
  = [EOnIndexChange 2].
Proof.
  destruct (jumpTo_finds_route (props_music 2) 2%nat
              (mkRoute "recents" "Recents" "history" (Some "#795548"))
              (constructor (props_music 2))) as [Hjump _].
  - apply NoDup_ListNoDup. simpl. repeat constructor; simpl; intuition discriminate.
  - reflexivity.
  - simpl in Hjump. rewrite Hjump. reflexivity.
Defined.

(** X9. [jumpTo] reports [-1] to the host exactly when no route has the
    key; for a key that some route has, the index it reports is an index
    of the route list. *)
Theorem jumpTo_minus_one_iff (props : Props) (k : string) (st : State) :
  let rs := routes (navigationState props) in
  (trace_of (_jumpTo props k st) = [EOnIndexChange (-1)]
   <-> forall r, r ∈ rs -> key r <> k)
  /\ ((exists r, r ∈ rs /\ key r = k) ->
      exists i, trace_of (_jumpTo props k st) = [EOnIndexChange i]
                /\ 0 <= i < Z.of_nat (length rs)).
Proof.
  intros rs. unfold _jumpTo, emit, trace_of. simpl. fold rs.
  set (p := fun route => String.eqb (key route) k).
  assert (Hhit : forall r, r ∈ rs -> key r = k -> 0 <= findIndex p rs).
  { intros r Hr Hk. apply (findIndex_from_hit p rs r 0 Hr).
    unfold p. apply String.eqb_eq, Hk. }
  split; [split |].
  - intros Hm1 r Hr Hk. injection Hm1 as Hm1.
    specialize (Hhit r Hr Hk). lia.
  - intros Hnone. f_equal. f_equal. apply findIndex_from_none.
    intros x Hx. apply String.eqb_neq, Hnone, Hx.
  - intros (r & Hr & Hk). exists (findIndex p rs). split; [reflexivity |].
    specialize (Hhit r Hr Hk).
    destruct (findIndex_range p rs) as [Hm1 | Hrange]; [lia | exact Hrange].
Qed.

Lemma jumpTo_minus_one_iff_witness :
  trace_of (_jumpTo (props_music 0) "settings" (constructor (props_music 0)))
  = [EOnIndexChange (-1)].
Proof.
  apply (jumpTo_minus_one_iff (props_music 0) "settings" (constructor (props_music 0))).
  intros r Hr. simpl in Hr.
  repeat (apply elem_of_cons in Hr as [-> | Hr]; [discriminate |]).
  apply not_elem_of_nil in Hr. contradiction.
Defined.

(** ** A controlled component *)

Definition is_update (inp : Input) : bool :=
  match inp with IUpdate _ => true | _ => false end.

(** X10. The component is controlled: nothing but a re-render by the host
    changes its props, and a press or a [jumpTo] changes nothing in the
    component at all -- not a cell, not the layout, no plan is started --
    it only calls the host.  A host that ignores [onIndexChange] drops the
    change. *)
Theorem handlers_only_call_the_host
        (cfg cfg' : Config) (inp : Input) (t : list Effect) :
  deliver cfg inp = Some (cfg', t) ->
  (is_update inp = false -> cfg_props cfg' = cfg_props cfg)
  /\ (is_press inp = true \/ is_jump inp = true ->
      cfg' = cfg
      /\ forall e, In e t -> is_host_call e = true).
Proof.
  intros Hd. destruct cfg as [props st pending].
  destruct inp as [h w | i | k | p | c v | idx]; simpl in Hd.
  - injection Hd as <- _. split; [reflexivity | intros [H | H]; discriminate].
  - destruct (pointerEvents st); [| discriminate].
    destruct (i <? length (routes (navigationState props)))%nat; [| discriminate].
    unfold run_method in Hd. simpl in Hd. rewrite handleTabPress_unfold in Hd.
    injection Hd as <- <-. split; [reflexivity |]. intros _. split; [reflexivity |].
    unfold trace_of. simpl. intros e Hin.
    apply in_app_or in Hin as [Hin | Hin].
    + destruct (Z.of_nat i =? index (navigationState props)); [destruct Hin |].
      destruct Hin as [<- | []]. reflexivity.
    + destruct (hasOnTabPress props); [| destruct Hin].
      destruct Hin as [<- | []]. reflexivity.
  - injection Hd as <- <-. split; [reflexivity |]. intros _. split; [reflexivity |].
    intros e [<- | []]. reflexivity.
  - split; [discriminate | intros [H | H]; discriminate].
  - injection Hd as <- _. split; [reflexivity | intros [H | H]; discriminate].
  - destruct (bool_decide (idx ∈ pending)); [| discriminate].
    injection Hd as <- _. split; [reflexivity | intros [H | H]; discriminate].
Qed.

Lemma handlers_only_call_the_host_witness :
  exists cfg' t,
    deliver (mkConfig (props_abc 0) (measured_state (props_abc 0) 56 400) []) (IPress 2)
    = Some (cfg', t)
    /\ cfg' = mkConfig (props_abc 0) (measured_state (props_abc 0) 56 400) [].
Proof.
  eexists. eexists. split; [reflexivity |].
  apply (handlers_only_call_the_host
           (mkConfig (props_abc 0) (measured_state (props_abc 0) 56 400) [])
           _ (IPress 2) _ eq_refl).
  left. reflexivity.
Defined.

(** ** Completion, again *)

(** A list built from positions alone does not depend on what it is built
    over. *)
Lemma imap_positions {A B C : Type} (f : nat -> C) (l : list A) (l' : list B) :
  length l = length l' ->
  imap (fun i _ => f i) l = imap (fun i _ => f i) l'.
Proof.
  intros Hlen. apply list_eq. intros i. rewrite !list_lookup_imap.
  destruct (l !! i) as [x |] eqn:Hx, (l' !! i) as [y |] eqn:Hy; try reflexivity.
  - apply lookup_lt_Some in Hx. apply lookup_ge_None in Hy. lia.
  - apply lookup_ge_None in Hx. apply lookup_lt_Some in Hy. lia.
Qed.

(** X11. The completion callback is a last-writer-wins reset: what it
    leaves depends on the index it captured and not on the cells it finds,
    so a callback that runs after another one overrides it entirely.  It
    makes one [setValue] per focus cell and two more (index and ripple),
    and it never writes a shift cell nor the layout. *)
Theorem start_callback_overrides (i j : Z) (st : State) :
  final_state (start_callback j (final_state (start_callback i st)))
  = final_state (start_callback j st)
  /\ shifts (final_state (start_callback j st)) = shifts st
  /\ layout (final_state (start_callback j st)) = layout st
  /\ length (trace_of (start_callback j st)) = (length (tabs st) + 2)%nat
  /\ (forall e, In e (trace_of (start_callback j st)) ->
        match e with
        | ESetValue (TabCell k) v => (k < length (tabs st))%nat /\ v = focus_target j k
        | ESetValue IndexCell v => v = inject_Z j
        | ESetValue RippleCell v => v = MIN_RIPPLE_SCALE
        | _ => False
        end).
Proof.
  rewrite !start_callback_unfold. unfold final_state, trace_of.
  cbn [fst snd tabs shifts anim_index ripple layout].
  split.
  { f_equal. apply imap_positions. apply length_imap. }
  split; [reflexivity |]. split; [reflexivity |].
  split.
  { rewrite length_app, length_imap. reflexivity. }
  intros e Hin. apply in_app_or in Hin as [Hin | [<- | [<- | []]]]; try reflexivity.
  apply list_elem_of_In, elem_of_lookup_imap in Hin as (k & x & -> & Hk).
  apply lookup_lt_Some in Hk. split; [exact Hk | reflexivity].
Qed.

(** X12. An index outside the focus cells focuses nothing: when the
    callback has captured an index that is negative (the [-1] of a failed
    key lookup) or past the last cell, it leaves every focus cell at 0,
    and still stores that index in [state.index]. *)
Theorem completion_without_focus (idx : Z) (st : State) :
  idx < 0 \/ Z.of_nat (length (tabs st)) <= idx ->
  let fin := final_state (start_callback idx st) in
  (forall (i : nat) (q : Q), tabs fin !! i = Some q -> q = 0%Q)
  /\ length (tabs fin) = length (tabs st)
  /\ anim_index fin = inject_Z idx.
Proof.
  intros Hout fin. subst fin. rewrite start_callback_unfold. unfold final_state.
  cbn [fst snd tabs anim_index].
  split; [| split; [apply length_imap | reflexivity]].
  intros i q Hq. rewrite list_lookup_imap in Hq.
  destruct (tabs st !! i) as [x |] eqn:Hx; [| discriminate].
  apply lookup_lt_Some in Hx. injection Hq as <-. unfold focus_target.
  destruct (Z.eqb_spec (Z.of_nat i) idx); [lia | reflexivity].
Qed.

Lemma completion_without_focus_witness :
  tabs (final_state (start_callback (-1) scrambled_state)) !! 1%nat = Some 0%Q.
Proof.
  destruct (completion_without_focus (-1) scrambled_state) as (Hzero & _).
  - left. lia.
  - destruct (tabs (final_state (start_callback (-1) scrambled_state)) !! 1%nat)
      as [q |] eqn:Hq.
    + rewrite (Hzero 1%nat q Hq). reflexivity.
    + discriminate Hq.
Defined.

(** ** The last layout wins *)

Lemma run_inputs_no_layout (ins : list Input) :
  forall (cfg cfg' : Config) (t : list Effect),
    run_inputs cfg ins = Some (cfg', t) ->
    existsb is_layout ins = false ->
    layout (cfg_state cfg') = layout (cfg_state cfg).
Proof.
  induction ins as [| inp rest IH]; intros cfg cfg' t Hrun Hnl; simpl in Hrun.
  - injection Hrun as <- _. reflexivity.
  - simpl in Hnl. apply orb_false_elim in Hnl as [Hinp Hrest].
    destruct (deliver cfg inp) as [[cfg1 t1] |] eqn:Hd; [| discriminate].
    destruct (run_inputs cfg1 rest) as [[cfg2 t2] |] eqn:Hr; [| discriminate].
    injection Hrun as <- _.
    rewrite (IH _ _ _ Hr Hrest). apply (deliver_layout _ _ _ _ Hd Hinp).
Qed.

(** X13. The layout the component works with is the size of the last
    [onLayout] it received, whatever happened before or since: presses,
    [jumpTo], re-renders, animation steps and completions never change it;
    and [onLayout] itself changes neither a cell nor the props and fires
    nothing. *)
Theorem last_layout_wins
        (cfg cfg' : Config) (before after : list Input) (h w : Q) (t : list Effect) :
  run_inputs cfg (before ++ ILayout h w :: after) = Some (cfg', t) ->
  existsb is_layout after = false ->
  layout (cfg_state cfg') = mkLayout h w true
  /\ (forall c, deliver c (ILayout h w)
                = Some (mkConfig (cfg_props c)
                          (mkState (tabs (cfg_state c)) (shifts (cfg_state c))
                                   (anim_index (cfg_state c)) (ripple (cfg_state c))
                                   (mkLayout h w true))
                          (cfg_pending c), [])).
Proof.
  intros Hrun Hafter.
  destruct (run_inputs_app _ _ _ _ _ Hrun) as (cfg1 & t1 & t2 & _ & Hb & _).
  cbn [run_inputs] in Hb.
  destruct (deliver cfg1 (ILayout h w)) as [[cfg2 t3] |] eqn:Hd; [| discriminate].
  destruct (run_inputs cfg2 after) as [[cfg3 t4] |] eqn:Hr; [| discriminate].
  injection Hb as <- _.
  split; [| intros c; reflexivity].
  rewrite (run_inputs_no_layout _ _ _ _ Hr Hafter).
  simpl in Hd. injection Hd as <- _. reflexivity.
Qed.

Lemma last_layout_wins_witness :
  exists cfg' t,
    run_inputs (mount (props_abc 0))
               ([ILayout 56 320; IPress 1] ++ ILayout 56 400 :: [IJumpTo "c"; IPress 2])
    = Some (cfg', t)
    /\ layout (cfg_state cfg') = mkLayout 56 400 true.
Proof.
  eexists. eexists. split; [reflexivity |].
  apply (last_layout_wins (mount (props_abc 0)) _ [ILayout 56 320; IPress 1]
           [IJumpTo "c"; IPress 2] 56 400 _ eq_refl).
  reflexivity.
Defined.

(** ** A whole transition *)

Lemma settle_app (p1 p2 : list Timing) (st : State) :
  settle (p1 ++ p2) st = settle p2 (settle p1 st).
Proof. unfold settle. apply foldl_app. Qed.

Lemma settle_cons (t : Timing) (ts : list Timing) (st : State) :
  settle (t :: ts) st = settle ts (run_timing t st).
Proof. reflexivity. Qed.

Lemma run_timing_cell (c : Cell) (v : Q) (d : Z) (u : bool) (st : State) :
  run_timing (mkTiming (Some c) v d u) st = write_cell c v st.
Proof. reflexivity. Qed.

(** Timings on the focus cells from position [k] on, run to their end. *)
Lemma settle_tab_timings {A : Type} (f : nat -> Q) (d : Z) (u : bool) (arr : list A) :
  forall (k : nat) (pre old sh : list Q) (ix rp : Q) (ly : Layout),
    length pre = k ->
    length old = length arr ->
    settle (imap (fun j _ => mkTiming (Some (TabCell (k + j))) (f (k + j)%nat) d u) arr)
           (mkState (pre ++ old) sh ix rp ly)
    = mkState (pre ++ imap (fun j _ => f (k + j)%nat) arr) sh ix rp ly.
Proof.
  induction arr as [| x rest IH]; intros k pre old sh ix rp ly Hpre Hold.
  - destruct old; [| discriminate]. reflexivity.
  - destruct old as [| y old]; [discriminate |].
    simpl in Hold. injection Hold as Hold.
    cbn [imap]. rewrite settle_cons, run_timing_cell.
    cbn [write_cell tabs shifts anim_index ripple layout].
    rewrite Nat.add_0_r.
    rewrite insert_app_r_alt by lia.
    replace (k - length pre)%nat with 0%nat by lia. cbn [list_insert insert].
    change (pre ++ f k :: old) with (pre ++ [f k] ++ old). rewrite app_assoc.
    rewrite (imap_ext
               ((fun j (_ : A) => mkTiming (Some (TabCell (k + j))) (f (k + j)%nat) d u) ∘ S)
               (fun j _ => mkTiming (Some (TabCell (S k + j))) (f (S k + j)%nat) d u) rest)
      by (intros j z _; simpl; replace (k + S j)%nat with (S (k + j)) by lia; reflexivity).
    rewrite (IH (S k) (pre ++ [f k]) old) by (rewrite ?length_app; simpl; lia).
    rewrite <- app_assoc. cbn [app].
    rewrite (imap_ext ((fun j (_ : A) => f (k + j)%nat) ∘ S)
                      (fun j _ => f (S k + j)%nat) rest)
      by (intros j z _; simpl; f_equal; lia).
    reflexivity.
Qed.

(** The same for the shift cells. *)
Lemma settle_shift_timings {A : Type} (f : nat -> Q) (d : Z) (u : bool) (arr : list A) :
  forall (k : nat) (pre old tb : list Q) (ix rp : Q) (ly : Layout),
    length pre = k ->
    length old = length arr ->
    settle (imap (fun j _ => mkTiming (Some (ShiftCell (k + j))) (f (k + j)%nat) d u) arr)
           (mkState tb (pre ++ old) ix rp ly)
    = mkState tb (pre ++ imap (fun j _ => f (k + j)%nat) arr) ix rp ly.
Proof.
  induction arr as [| x rest IH]; intros k pre old tb ix rp ly Hpre Hold.
  - destruct old; [| discriminate]. reflexivity.
  - destruct old as [| y old]; [discriminate |].
    simpl in Hold. injection Hold as Hold.
    cbn [imap]. rewrite settle_cons, run_timing_cell.
    cbn [write_cell tabs shifts anim_index ripple layout].
    rewrite Nat.add_0_r.
    rewrite insert_app_r_alt by lia.
    replace (k - length pre)%nat with 0%nat by lia. cbn [list_insert insert].
    change (pre ++ f k :: old) with (pre ++ [f k] ++ old). rewrite app_assoc.
    rewrite (imap_ext
               ((fun j (_ : A) => mkTiming (Some (ShiftCell (k + j))) (f (k + j)%nat) d u) ∘ S)
               (fun j _ => mkTiming (Some (ShiftCell (S k + j))) (f (S k + j)%nat) d u) rest)
      by (intros j z _; simpl; replace (k + S j)%nat with (S (k + j)) by lia; reflexivity).
    rewrite (IH (S k) (pre ++ [f k]) old) by (rewrite ?length_app; simpl; lia).
    rewrite <- app_assoc. cbn [app].
    rewrite (imap_ext ((fun j (_ : A) => f (k + j)%nat) ∘ S)
                      (fun j _ => f (S k + j)%nat) rest)
      by (intros j z _; simpl; f_equal; lia).
    reflexivity.
Qed.

(** With one cell per route every timing of the plan has its cell. *)
Lemma transition_plan_explicit (nav : NavigationState) (st : State) :
  length (tabs st) = length (routes nav) ->
  length (shifts st) = length (routes nav) ->
  transition_plan nav st =
  imap (fun j _ => mkTiming (Some (TabCell (0 + j))) (focus_target (index nav) (0 + j)) 200 true)
       (routes nav)
  ++ imap (fun j _ => mkTiming (Some (ShiftCell (0 + j)))
                               (shift_target (index nav) (0 + j) (route_count nav)) 200 true)
          (routes nav)
  ++ [mkTiming (Some RippleCell) 1 300 true].
Proof.
  intros Htabs Hshifts. unfold transition_plan. f_equal; [| f_equal].
  - apply imap_ext. intros j r Hr. apply lookup_lt_Some in Hr.
    rewrite tabs_ref_in_range by lia. reflexivity.
  - apply imap_ext. intros j r Hr. apply lookup_lt_Some in Hr.
    rewrite shifts_ref_in_range by lia. reflexivity.
Qed.

(** X14. A transition ends where a fresh component would start.  When the
    index changes on a component with one cell per route and every timing
    of the plan runs to its end, the focus and shift cells hold exactly
    what the constructor would give them for the new props and the ripple
    is at 1, while [state.index] still holds its old value: it is not part
    of the plan.  The completion callback then stores the new index and
    resets the ripple, and the state equals the constructor's for the new
    props except that the layout is kept. *)
Theorem transition_reaches_constructor_state (prevProps props : Props) (st : State) :
  let nav := navigationState props in
  let r := componentDidUpdate prevProps props st in
  index (navigationState prevProps) <> index nav ->
  length (tabs st) = length (routes nav) ->
  length (shifts st) = length (routes nav) ->
  exists plan : list Timing,
    trace_of r = [ESetValue RippleCell MIN_RIPPLE_SCALE; EStart plan (index nav)]
    /\ tabs (settle plan (final_state r)) = tabs (constructor props)
    /\ shifts (settle plan (final_state r)) = shifts (constructor props)
    /\ ripple (settle plan (final_state r)) = 1%Q
    /\ anim_index (settle plan (final_state r)) = anim_index st
    /\ layout (settle plan (final_state r)) = layout st
    /\ final_state (start_callback (index nav) (settle plan (final_state r)))
       = mkState (tabs (constructor props)) (shifts (constructor props))
                 (anim_index (constructor props)) (ripple (constructor props))
                 (layout st).
Proof.
  intros nav r Hne Htabs Hshifts. subst r.
  rewrite (componentDidUpdate_changed _ _ _ Hne). fold nav.
  eexists. split; [reflexivity |].
  unfold final_state, trace_of. cbn [fst snd].
  destruct st as [tb sh ix rp ly]. cbn [tabs shifts anim_index ripple layout] in *.
  cbn [write_cell tabs shifts anim_index ripple layout].
  rewrite transition_plan_explicit by assumption.
  rewrite !settle_app.
  pose proof (settle_tab_timings (focus_target (index nav)) 200 true (routes nav)
                0 [] tb sh ix MIN_RIPPLE_SCALE ly eq_refl Htabs) as Hfocus.
  cbn [app] in Hfocus. rewrite Hfocus.
  pose proof (settle_shift_timings (fun j => shift_target (index nav) j (route_count nav))
                200 true (routes nav) 0 [] sh
                (imap (fun j _ => focus_target (index nav) (0 + j)) (routes nav))
                ix MIN_RIPPLE_SCALE ly eq_refl Hshifts) as Hshift.
  cbn [app] in Hshift. rewrite Hshift.
  rewrite settle_cons, run_timing_cell. cbn [settle foldl write_cell Nat.add].
  cbn [tabs shifts anim_index ripple layout].
  unfold constructor. fold nav. cbn [tabs shifts anim_index ripple layout].
  repeat split.
  rewrite start_callback_unfold. unfold final_state.
  cbn [fst snd tabs shifts anim_index ripple layout].
  f_equal. rewrite <- (imap_positions (focus_target (index nav)) (routes nav)); [reflexivity |].
  rewrite length_imap. reflexivity.
Qed.

Lemma transition_reaches_constructor_state_witness :
  exists plan : list Timing,
    trace_of (componentDidUpdate (props_music 0) (props_music 3) (constructor (props_music 0)))
    = [ESetValue RippleCell MIN_RIPPLE_SCALE; EStart plan 3]
    /\ final_state
         (start_callback 3
            (settle plan
               (final_state (componentDidUpdate (props_music 0) (props_music 3)
                               (constructor (props_music 0))))))
       = constructor (props_music 3).
Proof.
  destruct (transition_reaches_constructor_state (props_music 0) (props_music 3)
              (constructor (props_music 0)))
    as (plan & Htrace & _ & _ & _ & _ & _ & Hfin).
  - simpl. lia.
  - reflexivity.
  - reflexivity.
  - exists plan. split; [exact Htrace | exact Hfin].
Defined.

(** ** The component under the example host *)

Lemma index_changes_app (t1 t2 : list Effect) :
  index_changes (t1 ++ t2) = index_changes t1 ++ index_changes t2.
Proof. unfold index_changes. apply omap_app. Qed.

Lemma index_changes_setValues {A : Type} (g : nat -> A -> Effect) (l : list A) :
  (forall i x, exists c v, g i x = ESetValue c v) ->
  index_changes (imap g l) = [].
Proof.
  revert g. induction l as [| y l IH]; intros g Hg.
  - reflexivity.
  - cbn [imap]. destruct (Hg 0%nat y) as (c & v & ->).
    unfold index_changes. cbn [omap]. apply IH. intros i x. apply Hg.
Qed.

(** The completion callback calls nothing on the host. *)
Lemma start_callback_index_changes (idx : Z) (st : State) :
  index_changes (trace_of (start_callback idx st)) = [].
Proof.
  rewrite start_callback_unfold. unfold trace_of. cbn [snd].
  rewrite index_changes_app, index_changes_setValues.
  - reflexivity.
  - intros i x. eexists. eexists. reflexivity.
Qed.

(** X15. Under the example host a press on a tab of a measured component
    goes the whole way round: on a tab other than the active one the
    component calls [onIndexChange], the host stores the index and renders
    again, and the component starts one plan toward the pressed tab; once
    that plan is reported complete the pressed tab is the only focused one
    and [state.index] holds its index.  A press on the active tab changes
    nothing and calls nothing. *)
Theorem example_press_round_trip (sys : System) (i : nat) :
  let s := host sys in
  cfg_props (component sys) = BottomNavigationExample.render s ->
  measured (layout (cfg_state (component sys))) = true ->
  length (tabs (cfg_state (component sys))) = length (routes s) ->
  (i < length (routes s))%nat ->
  (Z.of_nat i = index s -> system_deliver sys (IPress i) = Some (sys, []))
  /\ (Z.of_nat i <> index s ->
      exists (sys1 : System) (plan : list Timing),
        system_deliver sys (IPress i)
        = Some (sys1, [EOnIndexChange (Z.of_nat i);
                       ESetValue RippleCell MIN_RIPPLE_SCALE;
                       EStart plan (Z.of_nat i)])
        /\ host sys1 = mkNav (Z.of_nat i) (routes s)
        /\ cfg_props (component sys1) = BottomNavigationExample.render (host sys1)
        /\ exists (sys2 : System) (t2 : list Effect),
             system_deliver sys1 (IComplete (Z.of_nat i)) = Some (sys2, t2)
             /\ host sys2 = host sys1
             /\ (forall (j : nat) (r : Route),
                   routes s !! j = Some r ->
                   tabs (cfg_state (component sys2)) !! j
                   = Some (if (j =? i)%nat then 1 else 0)%Q)
             /\ anim_index (cfg_state (component sys2)) = inject_Z (Z.of_nat i)).
Proof.
  intros s0 Hprops Hmeasured Hlen Hi. subst s0.
  destruct sys as [s [props st pending]].
  cbn [host component cfg_props cfg_state] in *. subst props.
  assert (Hpress : forall t,
             (if Z.of_nat i =? index s then [] else [EOnIndexChange (Z.of_nat i)]) ++ [] = t ->
             deliver (mkConfig (BottomNavigationExample.render s) st pending) (IPress i)
             = Some (mkConfig (BottomNavigationExample.render s) st pending, t)).
  { intros t <-. cbn [deliver cfg_state cfg_props]. unfold pointerEvents. rewrite Hmeasured.
    cbn [BottomNavigationExample.render navigationState].
    destruct (Nat.ltb_spec i (length (routes s))); [| lia].
    unfold run_method. rewrite handleTabPress_unfold. reflexivity. }
  split.
  - intros Heq. unfold system_deliver. cbn [component host].
    rewrite (Hpress []) by (rewrite Heq, Z.eqb_refl; reflexivity).
    reflexivity.
  - intros Hne.
    assert (Hchanged : index (navigationState (BottomNavigationExample.render s))
                       <> index (navigationState
                                   (BottomNavigationExample.render
                                      (mkNav (Z.of_nat i) (routes s)))))
      by (simpl; congruence).
    eexists. eexists. split.
    { unfold system_deliver. cbn [component host].
      rewrite (Hpress [EOnIndexChange (Z.of_nat i)])
        by (destruct (Z.eqb_spec (Z.of_nat i) (index s)); [contradiction | reflexivity]).
      cbn [index_changes omap host_react foldl BottomNavigationExample._handleIndexChange].
      cbn [deliver cfg_props cfg_state cfg_pending].
      rewrite (componentDidUpdate_changed _ _ _ Hchanged).
      reflexivity. }
    cbn [host component cfg_props]. split; [reflexivity |]. split; [reflexivity |].
    eexists. eexists. split.
    { unfold system_deliver. cbn [component host deliver cfg_pending cfg_state cfg_props].
      unfold trace_of at 1, final_state at 1. cbn [fst snd started_indices omap].
      rewrite bool_decide_eq_true_2 by (apply elem_of_app; right; apply list_elem_of_here).
      rewrite start_callback_index_changes. reflexivity. }
    cbn [host component cfg_state]. split; [reflexivity |].
    rewrite start_callback_unfold. unfold final_state.
    cbn [fst snd tabs anim_index write_cell]. split; [| reflexivity].
    intros j r Hr. apply lookup_lt_Some in Hr. rewrite list_lookup_imap.
    destruct (lookup_lt_is_Some_2 (tabs st) j) as [x ->]; [lia |].
    simpl. unfold focus_target. f_equal.
    destruct (Nat.eqb_spec j i) as [-> | Hji].
    + rewrite Z.eqb_refl. reflexivity.
    + destruct (Z.eqb_spec (Z.of_nat j) (Z.of_nat i)); [lia | reflexivity].
Qed.

Definition example_measured : System :=
  mkSystem BottomNavigationExample.state
    (mkConfig (BottomNavigationExample.render BottomNavigationExample.state)
              (measured_state (BottomNavigationExample.render BottomNavigationExample.state)
                              56 360)
              []).

Lemma example_press_round_trip_witness :
  system_deliver example_measured (IPress 0) = Some (example_measured, [])
  /\ exists sys1 plan,
       system_deliver example_measured (IPress 2)
       = Some (sys1, [EOnIndexChange 2; ESetValue RippleCell MIN_RIPPLE_SCALE; EStart plan 2])
       /\ index (host sys1) = 2.
Proof.
  destruct (example_press_round_trip example_measured 0%nat) as [Hsame _];
    [reflexivity | reflexivity | reflexivity | simpl; lia |].
  destruct (example_press_round_trip example_measured 2%nat) as [_ Hother];
    [reflexivity | reflexivity | reflexivity | simpl; lia |].
  split.
  - apply Hsame. reflexivity.
  - destruct Hother as (sys1 & plan & Hstep & Hhost & _); [simpl; lia |].
    exists sys1, plan. split; [exact Hstep |]. rewrite Hhost. reflexivity.
Defined.

(** X16. Under the example host a [jumpTo] with a key that no route has
    is not dropped: the component reports [-1], the host stores it as the
    active index and renders again, and with more than three routes, where
    shifting mode is on by default, that render throws while it builds the
    ripple. *)
Theorem example_unknown_key_breaks_render (sys : System) (k : string) :
  let s := host sys in
  cfg_props (component sys) = BottomNavigationExample.render s ->
  (forall r, r ∈ routes s -> key r <> k) ->
  exists (sys1 : System) (t : list Effect),
    system_deliver sys (IJumpTo k) = Some (sys1, t)
    /\ In (EOnIndexChange (-1)) t
    /\ host sys1 = mkNav (-1) (routes s)
    /\ cfg_props (component sys1) = BottomNavigationExample.render (host sys1)
    /\ (3 < route_count s ->
        render_ripple (cfg_props (component sys1)) (cfg_state (component sys1))
        = JsTypeError).
Proof.
  intros s0 Hprops Habsent. subst s0.
  destruct sys as [s [props st pending]].
  cbn [host component cfg_props cfg_state] in *. subst props.
  assert (Hidx : findIndex (fun route => String.eqb (key route) k) (routes s) = -1).
  { apply findIndex_from_none. intros x Hx. apply String.eqb_neq, Habsent, Hx. }
  eexists. eexists. split.
  { unfold system_deliver. cbn [component host deliver cfg_props cfg_state cfg_pending].
    unfold run_method, _jumpTo, emit, trace_of, final_state.
    cbn [fst snd BottomNavigationExample.render navigationState cfg_state cfg_props cfg_pending].
    rewrite Hidx.
    cbn [index_changes omap host_react foldl BottomNavigationExample._handleIndexChange].
    reflexivity. }
  cbn [host component cfg_props cfg_state].
  split; [left; reflexivity |]. split; [reflexivity |]. split; [reflexivity |].
  intros Hmany. unfold render_ripple, render_shifting.
  change (host_react s [EOnIndexChange (-1)]) with (mkNav (-1) (routes s)).
  cbn [BottomNavigationExample.render shifting typeof_is_boolean navigationState index routes].
  destruct (Z.ltb_spec 3 (route_count (mkNav (-1) (routes s)))) as [_ | Hfew].
  - reflexivity.
  - unfold route_count in *. simpl in Hfew. lia.
Qed.

Lemma example_unknown_key_breaks_render_witness :
  exists sys1 t,
    system_deliver example_measured (IJumpTo "settings") = Some (sys1, t)
    /\ render_ripple (cfg_props (component sys1)) (cfg_state (component sys1)) = JsTypeError.
Proof.
  destruct (example_unknown_key_breaks_render example_measured "settings")
    as (sys1 & t & Hstep & _ & _ & _ & Hthrow).
  - reflexivity.
  - intros r Hr. simpl in Hr.
    repeat (apply elem_of_cons in Hr as [-> | Hr]; [discriminate |]).
    apply not_elem_of_nil in Hr. contradiction.
  - exists sys1, t. split; [exact Hstep |]. apply Hthrow. vm_compute. reflexivity.
Defined.

(** ** CardActions *)

(** X17. [CardActions] makes its actions compact unless they opt out: an
    element child comes back with [compact] set to [false] if it had
    [compact] equal to [false] and to [true] in every other case (absent,
    [null], [true], any other value), with its type and its other props
    unchanged; a child that is no element (a string, a number, [null])
    comes back as it is.  Passing the result through again changes
    nothing. *)
Theorem CardActions_compact_by_default (child : CardActions.Child) :
  CardActions.map_child (CardActions.map_child child) = CardActions.map_child child
  /\ (forall e : CardActions.Element,
        child = CardActions.ChildElement e ->
        exists e' : CardActions.Element,
          CardActions.map_child child = CardActions.ChildElement e'
          /\ CardActions.el_type e' = CardActions.el_type e
          /\ CardActions.el_props e' = CardActions.el_props e
          /\ (CardActions.el_compact e = JsBoolean false ->
              CardActions.el_compact e' = JsBoolean false)
          /\ (CardActions.el_compact e <> JsBoolean false ->
              CardActions.el_compact e' = JsBoolean true))
  /\ ((forall e, child <> CardActions.ChildElement e) ->
      CardActions.map_child child = child).
Proof.
  split; [| split].
  - destruct child as [s | q | | [ty c ps]]; try reflexivity.
    destruct c as [| | [|] | |]; reflexivity.
  - intros e ->. eexists. split; [reflexivity |].
    split; [reflexivity |]. split; [reflexivity |].
    destruct e as [ty c ps]. simpl. split.
    + intros ->. reflexivity.
    + intros Hc. destruct c as [| | [|] | |]; try reflexivity. contradiction.
  - intros Hne. destruct child as [s | q | | e]; try reflexivity.
    exfalso. apply (Hne e). reflexivity.
Qed.

Lemma CardActions_compact_by_default_witness :
  CardActions.map_child
    (CardActions.ChildElement (CardActions.mkElement "Button" JsUndefined []))
  = CardActions.ChildElement (CardActions.mkElement "Button" (JsBoolean true) [])
  /\ CardActions.map_child (CardActions.ChildString "Cancel")
     = CardActions.ChildString "Cancel".
Proof.
  destruct (CardActions_compact_by_default
              (CardActions.ChildElement (CardActions.mkElement "Button" JsUndefined [])))
    as (_ & Helem & _).
  destruct (CardActions_compact_by_default (CardActions.ChildString "Cancel"))
    as (_ & _ & Hother).
  split.
  - destruct (Helem _ eq_refl) as (e' & He' & _). rewrite He'. simpl in He'.
    injection He' as <-. reflexivity.
  - apply Hother. intros e. discriminate.
Defined.

(** ** The cells follow the first route list *)


